(** * Verification of [kitsune/customercare/cron.py]

    The three cron jobs of the customer-care application -- tweet collection
    ([collect_tweets] with its filter [_filter_tweet]), retention
    ([purge_tweets]) and contributor statistics ([get_customercare_stats]) --
    are embedded as executable Rocq definitions over an explicit world state,
    and the properties of the specification are stated and proved about them.

    Conventions of the embedding:
    - Python text is a [string] of code units; case mapping and the regular
      expression classes act on the ASCII range, code units above it are
      neither letters nor word characters.
    - Python integers are [Z]; a [datetime] is a [Z] number of microseconds.
    - The module's side effects (statsd counters, log records, the tweet and
      reply tables, the redis cache) are fields of [World]; a job is a
      function from a world to a result and a new world, and a Python
      exception is the [Raise] result. *)

From Stdlib Require Import ZArith String Ascii List Lia Sorting.Sorted Permutation.
From stdpp Require Import base option list sorting gmap strings.

Local Open Scope string_scope.
Local Open Scope Z_scope.

(** ** Text primitives *)

Module Text.

Definition code (c : ascii) : N := N_of_ascii c.

Definition in_range (lo hi : N) (c : ascii) : bool :=
  ((lo <=? code c) && (code c <=? hi))%N.

Definition is_upper : ascii -> bool := in_range 65 90.
Definition is_lower : ascii -> bool := in_range 97 122.
Definition is_digit : ascii -> bool := in_range 48 57.

(** [str.lower] on one character. *)
Definition lower_char (c : ascii) : ascii :=
  if is_upper c then ascii_of_N (code c + 32) else c.

(** [s.lower()] *)
Fixpoint lower (s : string) : string :=
  match s with
  | EmptyString => EmptyString
  | String c s' => String (lower_char c) (lower s')
  end.

(** The class [\w] of the [re] module without the LOCALE and UNICODE
    flags: [[a-zA-Z0-9_]]. *)
Definition is_word (c : ascii) : bool :=
  is_lower c || is_upper c || is_digit c || Ascii.eqb c "_".

(** [s.startswith(p)] *)
Fixpoint startswith (p s : string) : bool :=
  match p, s with
  | EmptyString, _ => true
  | String a p', String b s' => Ascii.eqb a b && startswith p' s'
  | String _ _, EmptyString => false
  end.

(** [p in s], that is [s.find(p) > -1]. *)
Fixpoint contains (p s : string) : bool :=
  startswith p s ||
  match s with
  | EmptyString => false
  | String _ s' => contains p s'
  end.

(** [s.replace(old, new)] for a non-empty [old]: occurrences are found
    from left to right and do not overlap.  [skip] counts the characters
    of the occurrence being replaced that are still to be dropped. *)
Fixpoint replace_from (old new : string) (skip : nat) (s : string) : string :=
  match s with
  | EmptyString => EmptyString
  | String c s' =>
      match skip with
      | S k => replace_from old new k s'
      | O =>
          if startswith old s
          then new ++ replace_from old new (Nat.pred (String.length old)) s'
          else String c (replace_from old new O s')
      end
  end.

Definition replace (old new s : string) : string := replace_from old new O s.

End Text.

(** ** Regular expressions

    The three patterns of the module use literals, the class [\W], one
    optional character and the anchor [^].  A pattern body is a sequence of
    atoms; [re.search] tries the body at every position, an anchored body
    only at the start. *)

Module Re.

Inductive atom :=
| One (p : ascii -> bool)      (* one character of a class *)
| Opt (p : ascii -> bool).     (* [x?] *)

Definition take (p : ascii -> bool) (k : string -> bool) (s : string) : bool :=
  match s with
  | EmptyString => false
  | String c s' => p c && k s'
  end.

Fixpoint match_here (re : list atom) (s : string) : bool :=
  match re with
  | [] => true
  | One p :: re' => take p (match_here re') s
  | Opt p :: re' => take p (match_here re') s || match_here re' s
  end.

(** Search of an unanchored body. *)
Fixpoint search (re : list atom) (s : string) : bool :=
  match_here re s ||
  match s with
  | EmptyString => false
  | String _ s' => search re s'
  end.

(** A literal character, and the same under [re.IGNORECASE]. *)
Definition lit (c : ascii) : atom := One (Ascii.eqb c).
Definition liti (c : ascii) : atom :=
  One (fun x => Ascii.eqb (Text.lower_char x) (Text.lower_char c)).
Definition nonword : atom := One (fun x => negb (Text.is_word x)).

End Re.

(** [LINK_REGEX = re.compile('https?\:', re.IGNORECASE)] *)
Definition LINK_REGEX_search (s : string) : bool :=
  Re.search [Re.liti "h"; Re.liti "t"; Re.liti "t"; Re.liti "p";
             Re.Opt (fun x => Ascii.eqb (Text.lower_char x) "s"); Re.liti ":"] s.

(** [MENTION_REGEX = re.compile('(^|\W)@')]: the alternative [^] matches at
    the start of the text only, the alternative [\W] at any position. *)
Definition MENTION_REGEX_search (s : string) : bool :=
  Re.match_here [Re.lit "@"] s || Re.search [Re.nonword; Re.lit "@"] s.

(** [RT_REGEX = re.compile('^rt\W', re.IGNORECASE)] *)
Definition RT_REGEX_search (s : string) : bool :=
  Re.match_here [Re.liti "r"; Re.liti "t"; Re.nonword] s.

(** ** Data model *)

(** A decoded JSON value ([json.loads]); numbers are integers here. *)
#[local] Set Warnings "-register-all".
Inductive json :=
| JNull
| JBool (b : bool)
| JNum (n : Z)
| JStr (s : string)
| JArr (l : list json)
| JObj (o : gmap string json).

(** An entry of [ALLOWED_USERS]. *)
Record user := { user_id : Z; username : string }.

Definition ALLOWED_USERS : list user :=
  [ {| user_id := 2142731; username := "Firefox" |};
    {| user_id := 150793437; username := "FirefoxBrasil" |} ].

(** A status of the search result, with the keys the module reads.
    [item_to_user_id] is [item.get('to_user_id')]; [item_created_at] is the
    [datetime] that [rfc822.parsedate], [calendar.timegm] and
    [utcfromtimestamp] make of [item['created_at']], [None] when
    [parsedate] does not recognise the text; [item_metadata] is
    [None] when the key ['metadata'] is absent and [Some None] when the
    metadata carries no ['iso_language_code']. *)
Record Item := {
  item_id : Z;
  item_text : string;
  item_to_user_id : option Z;
  item_screen_name : string;
  item_created_at : option Z;
  item_metadata : option (option string);
}.

(** Rows of the two tables of [kitsune.customercare.models].  The
    [raw_json] of a tweet is the status it was made of.  The [raw_json] of a
    reply is a text: [reply_raw_json_valid] tells whether
    [json.loads(reply.raw_json)] decodes it, and [reply_raw_json] is the
    dictionary that it then returns. *)
Record Tweet := {
  tweet_id : Z;
  raw_json : Item;
  locale : string;
  created : Z;
}.

Record Reply := {
  twitter_username : string;
  reply_raw_json_valid : bool;
  reply_raw_json : gmap string json;
  reply_created : Z;
}.

(** The keys of a contributor entry that hold a counter. *)
Inductive window := W_all | W_1m | W_1w | W_1d.

(** An entry of [settings.LOCALES]. *)
Record Locale := { iso639_1 : option string }.

(** The values of [django.conf.settings] that the module reads.  [LOCALES]
    has an entry for every language, the two limits are counts and
    [CC_TOP_CONTRIB_SORT] is one of the four counter keys. *)
Record Settings := {
  STAGE : bool;
  CC_TWEETS_PERPAGE : Z;
  SUMO_LANGUAGES : list string;
  LOCALES : string -> Locale;
  CC_MAX_TWEETS : nat;
  CC_IGNORE_USERS : list string;
  CC_TOP_CONTRIB_SORT : window;
  CC_TOP_CONTRIB_LIMIT : nat;
  CC_TOP_CONTRIB_CACHE_KEY : string;
}.

(** The keyword arguments of [Twython.search]. *)
Record search_options := {
  q : string;
  count : Z;
  result_type : string;
  since_id : option Z;
}.

(** The records handed to the logger ['k.twitter']. *)
Inductive log_record :=
| LogDebug_no_existing_tweets (perpage : Z)
| LogInfo_retrieving_tweets (since : Z)
| LogDebug_truncating (oldest_created : Z) (loc : string)
| LogError_redis.

(** ** World and effects *)

Record World := {
  tweets : list Tweet;                       (* table of [Tweet] *)
  replies : list Reply;                      (* table of [Reply] *)
  redis : gmap string json;                  (* the ['default'] redis *)
  redis_up : bool;                           (* can a client be made? *)
  redis_writable : bool;                     (* does a write succeed? *)
  twitter : search_options -> list Item;     (* ['statuses'] of a search *)
  clock : Z;                                 (* [datetime.now()] *)
  statsd : gmap string nat;                  (* statsd counters *)
  log : list log_record;                     (* newest first *)
}.

Definition set_tweets (ts : list Tweet) (w : World) : World :=
  {| tweets := ts; replies := replies w; redis := redis w;
     redis_up := redis_up w; redis_writable := redis_writable w;
     twitter := twitter w; clock := clock w;
     statsd := statsd w; log := log w |}.

Definition set_redis (r : gmap string json) (w : World) : World :=
  {| tweets := tweets w; replies := replies w; redis := r;
     redis_up := redis_up w; redis_writable := redis_writable w;
     twitter := twitter w; clock := clock w;
     statsd := statsd w; log := log w |}.

Definition set_statsd (s : gmap string nat) (w : World) : World :=
  {| tweets := tweets w; replies := replies w; redis := redis w;
     redis_up := redis_up w; redis_writable := redis_writable w;
     twitter := twitter w; clock := clock w;
     statsd := s; log := log w |}.

Definition set_log (l : list log_record) (w : World) : World :=
  {| tweets := tweets w; replies := replies w; redis := redis w;
     redis_up := redis_up w; redis_writable := redis_writable w;
     twitter := twitter w; clock := clock w;
     statsd := statsd w; log := l |}.

(** Python exceptions raised on the paths of the module. *)
Inductive exn :=
| KeyError (key : string)
| TypeError
| IndexError
| IntegrityError
| DoesNotExist
| RedisError
| ValueError.

Global Instance exn_eq_dec : EqDecision exn.
Proof. solve_decision. Defined.

(** A value or a raised exception. *)
Inductive result (A : Type) :=
| Ok (a : A)
| Raise (e : exn).
Arguments Ok {A} a.
Arguments Raise {A} e.

Global Instance result_ret : MRet result := @Ok.
Global Instance result_bind : MBind result := fun A B k m =>
  match m with
  | Ok a => k a
  | Raise e => Raise e
  end.

(** A computation with effects on the world that may raise; the effects
    made before an exception stay. *)
Definition M (A : Type) : Type := World -> result A * World.

Global Instance M_ret : MRet M := fun A a w => (Ok a, w).
Global Instance M_bind : MBind M := fun A B k m w =>
  match m w with
  | (Ok a, w') => k a w'
  | (Raise e, w') => (Raise e, w')
  end.

Definition raise {A} (e : exn) : M A := fun w => (Raise e, w).

(** A computation without effects, inside [M]. *)
Definition lift {A} (r : result A) : M A := fun w => (r, w).

(** [try: m  except E: h], for the exception [E]. *)
Definition try_except {A} (m : M A) (E : exn) (h : M A) : M A :=
  fun w =>
    match m w with
    | (Ok a, w') => (Ok a, w')
    | (Raise e, w') => if decide (e = E) then h w' else (Raise e, w')
    end.

(** [for x in xs: body x] *)
Fixpoint for_each {A} (xs : list A) (body : A -> M unit) : M unit :=
  match xs with
  | [] => mret tt
  | x :: xs' => body x;; for_each xs' body
  end.

Definition read {A} (f : World -> A) : M A := fun w => (Ok (f w), w).
Definition modify (f : World -> World) : M unit := fun w => (Ok tt, f w).

(** [statsd.incr(name)] *)
Definition incr (name : string) (s : gmap string nat) : gmap string nat :=
  <[name := S (default O (s !! name))]> s.

Definition statsd_incr (name : string) : M unit :=
  modify (fun w => set_statsd (incr name (statsd w)) w).

Definition log_emit (r : log_record) : M unit :=
  modify (fun w => set_log (r :: log w) w).

(** ** The filter of incoming tweets *)

(** Truth value of [item.get('to_user_id')]: [None] and [0] are false. *)
Definition truthy (o : option Z) : bool :=
  match o with
  | Some n => negb (n =? 0)
  | None => false
  end.

(** [to_user_id not in [u['id'] for u in ALLOWED_USERS]] *)
Definition not_allowed_id (o : option Z) : bool :=
  match o with
  | Some n => negb (existsb (Z.eqb n) (user_id <$> ALLOWED_USERS))
  | None => true
  end.

(** The text after the loop that removes ['@%s' % username] for the
    lowercased name of every allowed user, in the order of the list. *)
Definition filtered_text (text : string) : string :=
  fold_left (fun ft name => Text.replace ("@" ++ name) "" ft)
            ((fun u => Text.lower (username u)) <$> ALLOWED_USERS) text.

Definition _filter_tweet (settings : Settings) (item : Item) (allow_links : bool)
  : M (option Item) :=
  let text := Text.lower (item_text item) in
  let to_user_id := item_to_user_id item in
  if truthy to_user_id && not_allowed_id to_user_id then
    statsd_incr "customercare.tweet.rejected.reply_or_mention";; mret None
  else if MENTION_REGEX_search (filtered_text text) then
    statsd_incr "customercare.tweet.rejected.reply_or_mention";; mret None
  else if RT_REGEX_search text || Text.contains "(via " text then
    statsd_incr "customercare.tweet.rejected.retweet";; mret None
  else if negb allow_links && LINK_REGEX_search text then
    statsd_incr "customercare.tweet.rejected.link";; mret None
  else if bool_decide (item_screen_name item ∈ CC_IGNORE_USERS settings) then
    statsd_incr "customercare.tweet.rejected.user";; mret None
  else mret (Some item).

(** The filter rejects [item] under the counter of [reason]: it returns
    [None] and its one effect is the increment of that counter. *)
Definition rejects (settings : Settings) (item : Item) (allow_links : bool)
    (reason : string) : Prop :=
  forall w, _filter_tweet settings item allow_links w =
    (Ok None,
     set_statsd (incr ("customercare.tweet.rejected." ++ reason) (statsd w)) w).

(** The filter accepts [item]: it returns it and has no effect. *)
Definition accepts (settings : Settings) (item : Item) (allow_links : bool) : Prop :=
  forall w, _filter_tweet settings item allow_links w = (Ok (Some item), w).

(** ** Collection *)

(** [order_by('-created')]: the later row first. *)
Definition newer_first (a b : Tweet) : Prop := created b <= created a.

Global Instance newer_first_dec : RelDecision newer_first.
Proof. intros a b. unfold newer_first. apply _. Defined.

(** Modelled from the spec: [Tweet.latest] of [kitsune.customercare.models],
    the most recently created stored post, [DoesNotExist] on an empty
    table. *)
Definition Tweet_latest : M Tweet := fun w =>
  match merge_sort newer_first (tweets w) with
  | t :: _ => (Ok t, w)
  | [] => (Raise DoesNotExist, w)
  end.

(** Modelled from the spec: [Tweet.save] of [kitsune.customercare.models]
    on a new row, an insert that fails with [IntegrityError] when a row of
    the same [tweet_id] is stored. *)
Definition Tweet_save (t : Tweet) : M unit := fun w =>
  if bool_decide (tweet_id t ∈ tweet_id <$> tweets w)
  then (Raise IntegrityError, w)
  else (Ok tt, set_tweets (tweets w ++ [t]) w).

(** The body of the loop over [results['statuses']]. *)
Definition collect_item (settings : Settings) (item : Item) : M unit :=
  statsd_incr "customercare.tweet.collected";;
  item ← _filter_tweet settings item (Text.contains "#fxinput" (item_text item));
  match item with
  | None => mret tt
  | Some item =>
      created_date ← match item_created_at item with
                     | Some d => mret d
                     | None => raise TypeError
                     end;
      item_lang ← match item_metadata item with
                  | Some metadata => mret (default "en" metadata)
                  | None => raise (KeyError "metadata")
                  end;
      let tweet := {| tweet_id := item_id item; raw_json := item;
                      locale := item_lang; created := created_date |} in
      try_except (Tweet_save tweet;; statsd_incr "customercare.tweet.saved")
                 IntegrityError (mret tt)
  end.

(** [collect_tweets].  The [statsd.timer] around the body only measures
    time and the credentials of the client play no part; both are left
    out. *)
Definition collect_tweets (settings : Settings) : M unit :=
  if STAGE settings then mret tt
  else
    let search_options :=
      {| q := "firefox OR #fxinput OR @firefoxbrasil OR #firefoxos";
         count := CC_TWEETS_PERPAGE settings;
         result_type := "recent";
         since_id := None |} in
    latest_tweet ← try_except (t ← Tweet_latest; mret (Some t)) DoesNotExist
                     (log_emit (LogDebug_no_existing_tweets (CC_TWEETS_PERPAGE settings));;
                      mret None);
    search_options ←
      match latest_tweet with
      | Some latest_tweet =>
          log_emit (LogInfo_retrieving_tweets (tweet_id latest_tweet));;
          mret {| q := q search_options; count := count search_options;
                  result_type := result_type search_options;
                  since_id := Some (tweet_id latest_tweet) |}
      | None => mret search_options
      end;
    results ← read (fun w => twitter w search_options);
    if (length results =? 0)%nat then mret tt
    else for_each results (collect_item settings).

(** ** Retention *)

(** [Tweet.objects.filter(locale=locale)] *)
Definition of_locale (loc : string) (ts : list Tweet) : list Tweet :=
  filter (fun t => locale t = loc) ts.

(** [Tweet.objects.filter(locale=locale).order_by('-created')[n]], [None]
    on [IndexError]. *)
Definition _get_oldest_tweet (loc : string) (n : nat) : M (option Tweet) :=
  try_except
    (ts ← read tweets;
     match merge_sort newer_first (of_locale loc ts) !! n with
     | Some t => mret (Some t)
     | None => raise IndexError
     end)
    IndexError (mret None).

(** [Tweet.objects.filter(locale=locale, created__lte=c).delete()] *)
Definition delete_lte (loc : string) (c : Z) (ts : list Tweet) : list Tweet :=
  filter (fun t => ~ (locale t = loc /\ created t <= c)) ts.

(** The body of the loop over [settings.SUMO_LANGUAGES]; an absent or empty
    code is false and the language is skipped. *)
Definition purge_locale (settings : Settings) (lang : string) : M unit :=
  match iso639_1 (LOCALES settings lang) with
  | None => mret tt
  | Some loc =>
      if bool_decide (loc = "") then mret tt
      else
        oldest ← _get_oldest_tweet loc (CC_MAX_TWEETS settings);
        match oldest with
        | Some oldest =>
            log_emit (LogDebug_truncating (created oldest) loc);;
            modify (fun w => set_tweets (delete_lte loc (created oldest) (tweets w)) w)
        | None => mret tt
        end
  end.

(** [purge_tweets].  [pin_this_thread()] selects the master database, which
    is the one table of the world. *)
Definition purge_tweets (settings : Settings) : M unit :=
  for_each (SUMO_LANGUAGES settings) (purge_locale settings).

(** ** Contributor statistics *)

(** An entry of [contributor_stats]. *)
Record Contributor := {
  c_twitter_username : string;
  avatar : json;
  avatar_https : json;
  c_all : Z;
  c_1m : Z;
  c_1w : Z;
  c_1d : Z;
}.

(** [c[key]] for a counter key. *)
Definition counter (key : window) (c : Contributor) : Z :=
  match key with
  | W_all => c_all c
  | W_1m => c_1m c
  | W_1w => c_1w c
  | W_1d => c_1d c
  end.

(** [timedelta(days=d)] in microseconds. *)
Definition timedelta_days (d : Z) : Z := d * 86400 * 1000000.

(** [d[k]] on a dictionary. *)
Definition getitem (d : gmap string json) (k : string) : result json :=
  match d !! k with
  | Some v => Ok v
  | None => Raise (KeyError k)
  end.

(** [v[k]] on a decoded value with a text key: only a dictionary has one. *)
Definition subscript (v : json) (k : string) : result json :=
  match v with
  | JObj d => getitem d k
  | _ => Raise TypeError
  end.

(** The entry of a user seen for the first time. *)
Definition new_contributor (user : string) (raw : gmap string json)
  : result Contributor :=
  user_data ← (if bool_decide (is_Some (raw !! "from_user"))
               then Ok (JObj raw)
               else getitem raw "user");
  a ← subscript user_data "profile_image_url";
  a_https ← subscript user_data "profile_image_url_https";
  mret {| c_twitter_username := user; avatar := a; avatar_https := a_https;
          c_all := 0; c_1m := 0; c_1w := 0; c_1d := 0 |}.

Definition add_all (c : Contributor) : Contributor :=
  {| c_twitter_username := c_twitter_username c; avatar := avatar c;
     avatar_https := avatar_https c;
     c_all := c_all c + 1; c_1m := c_1m c; c_1w := c_1w c; c_1d := c_1d c |}.

Definition add_1m (c : Contributor) : Contributor :=
  {| c_twitter_username := c_twitter_username c; avatar := avatar c;
     avatar_https := avatar_https c;
     c_all := c_all c; c_1m := c_1m c + 1; c_1w := c_1w c; c_1d := c_1d c |}.

Definition add_1w (c : Contributor) : Contributor :=
  {| c_twitter_username := c_twitter_username c; avatar := avatar c;
     avatar_https := avatar_https c;
     c_all := c_all c; c_1m := c_1m c; c_1w := c_1w c + 1; c_1d := c_1d c |}.

Definition add_1d (c : Contributor) : Contributor :=
  {| c_twitter_username := c_twitter_username c; avatar := avatar c;
     avatar_https := avatar_https c;
     c_all := c_all c; c_1m := c_1m c; c_1w := c_1w c; c_1d := c_1d c + 1 |}.

(** The three boundaries computed from [now]. *)
Definition one_month_ago (now : Z) : Z := now - timedelta_days 30.
Definition one_week_ago (now : Z) : Z := now - timedelta_days 7.
Definition yesterday (now : Z) : Z := now - timedelta_days 1.

(** The increments of one reply, nested as in the source. *)
Definition count_reply (now : Z) (reply_created : Z) (c : Contributor) : Contributor :=
  let c := add_all c in
  if reply_created >? one_month_ago now then
    let c := add_1m c in
    if reply_created >? one_week_ago now then
      let c := add_1w c in
      if reply_created >? yesterday now then add_1d c else c
    else c
  else c.

(** [json.loads(reply.raw_json)], which raises [ValueError] on a text that is
    not JSON. *)
Definition json_loads (reply : Reply) : result (gmap string json) :=
  if reply_raw_json_valid reply then Ok (reply_raw_json reply)
  else Raise ValueError.

(** The body of the loop over [Reply.objects.all()]: the payload of every
    reply is decoded, and the entry of the dictionary is updated in place. *)
Definition scan_reply (now : Z) (contributor_stats : gmap string Contributor)
    (reply : Reply) : result (gmap string Contributor) :=
  raw ← json_loads reply;
  let user := twitter_username reply in
  contributor_stats ←
    match contributor_stats !! user with
    | Some _ => Ok contributor_stats
    | None =>
        c ← new_contributor user raw;
        mret (<[user := c]> contributor_stats)
    end;
  contributor ← match contributor_stats !! twitter_username reply with
                | Some c => Ok c
                | None => Raise (KeyError (twitter_username reply))
                end;
  mret (<[twitter_username reply := count_reply now (reply_created reply) contributor]>
          contributor_stats).

Fixpoint scan_replies (now : Z) (contributor_stats : gmap string Contributor)
    (rs : list Reply) : result (gmap string Contributor) :=
  match rs with
  | [] => Ok contributor_stats
  | reply :: rs' =>
      contributor_stats ← scan_reply now contributor_stats reply;
      scan_replies now contributor_stats rs'
  end.

(** The order of [sorted(..., key=lambda c: (c[sort_key], c['all']),
    reverse=True)]: the pair of [a] is not below the pair of [b]. *)
Definition ranks_before (sort_key : window) (a b : Contributor) : Prop :=
  counter sort_key b < counter sort_key a \/
  (counter sort_key b = counter sort_key a /\ c_all b <= c_all a).

Global Instance ranks_before_dec sort_key : RelDecision (ranks_before sort_key).
Proof. intros a b. unfold ranks_before. apply _. Defined.

(** [contributor_stats.values()], in the order of the dictionary. *)
Definition values (contributor_stats : gmap string Contributor) : list Contributor :=
  (map_to_list contributor_stats).*2.

(** The sorted values, cut to [limit]. *)
Definition top_contributors (settings : Settings)
    (contributor_stats : gmap string Contributor) : list Contributor :=
  let sort_key := CC_TOP_CONTRIB_SORT settings in
  let limit := CC_TOP_CONTRIB_LIMIT settings in
  take limit (merge_sort (ranks_before sort_key) (values contributor_stats)).

(** [json.dumps] of the list, as a decoded value. *)
Definition contributor_json (c : Contributor) : json :=
  JObj (list_to_map
    [ ("twitter_username", JStr (c_twitter_username c));
      ("avatar", avatar c);
      ("avatar_https", avatar_https c);
      ("all", JNum (c_all c));
      ("1m", JNum (c_1m c));
      ("1w", JNum (c_1w c));
      ("1d", JNum (c_1d c)) ]).

Definition dumps (l : list Contributor) : json := JArr (contributor_json <$> l).

(** Modelled from the spec: [redis_client] of [kitsune.sumo.redis_utils],
    which fails with [RedisError] when no client of the backend can be
    made. *)
Definition redis_client : M unit := fun w =>
  if redis_up w then (Ok tt, w) else (Raise RedisError, w).

(** Modelled from the spec: [redis.set(key, value)], which replaces the
    value under [key] and fails with [RedisError] when the backend refuses
    the write. *)
Definition redis_set (key : string) (value : json) : M unit := fun w =>
  if redis_writable w then (Ok tt, set_redis (<[key := value]> (redis w)) w)
  else (Raise RedisError, w).

(** [get_customercare_stats] *)
Definition get_customercare_stats (settings : Settings) : M (list Contributor) :=
  now ← read clock;
  rs ← read replies;
  contributor_stats ← lift (scan_replies now ∅ rs);
  let contributor_stats := top_contributors settings contributor_stats in
  try_except
    (redis_client;;
     let key := CC_TOP_CONTRIB_CACHE_KEY settings in
     redis_set key (dumps contributor_stats))
    RedisError
    (statsd_incr "redis.error";; log_emit LogError_redis);;
  mret contributor_stats.

(** ** Vocabulary of the statements *)

(** The conditions of [_filter_tweet], in its order. *)
Definition passes_reply_filter (item : Item) : bool :=
  negb (truthy (item_to_user_id item) && not_allowed_id (item_to_user_id item)).

Definition passes_mention_filter (item : Item) : bool :=
  negb (MENTION_REGEX_search (filtered_text (Text.lower (item_text item)))).

Definition is_retweet (item : Item) : bool :=
  RT_REGEX_search (Text.lower (item_text item)) ||
  Text.contains "(via " (Text.lower (item_text item)).

Definition passes_link_filter (item : Item) (allow_links : bool) : bool :=
  negb (negb allow_links && LINK_REGEX_search (Text.lower (item_text item))).

(** The same candidate with another text. *)
Definition with_text (t : string) (item : Item) : Item :=
  {| item_id := item_id item; item_text := t;
     item_to_user_id := item_to_user_id item;
     item_screen_name := item_screen_name item;
     item_created_at := item_created_at item;
     item_metadata := item_metadata item |}.

(** From the words of the specification: an @-mention is an [@] at the
    start of the text or after a non-word character; the account it names
    is the run of word characters that follows. *)
Fixpoint word_run (s : string) : string :=
  match s with
  | EmptyString => EmptyString
  | String c s' => if Text.is_word c then String c (word_run s') else EmptyString
  end.

Fixpoint handles_from (after_nonword : bool) (s : string) : list string :=
  match s with
  | EmptyString => []
  | String c s' =>
      (if after_nonword && Ascii.eqb c "@" then [word_run s'] else [])
        ++ handles_from (negb (Text.is_word c)) s'
  end.

Definition mentioned_handles (text : string) : list string :=
  handles_from true (Text.lower text).

Definition allowed_handles : list string :=
  (fun u => Text.lower (username u)) <$> ALLOWED_USERS.

(** The text mentions an account that is not in the allow-list. *)
Definition mentions_other_account (text : string) : Prop :=
  exists h, h ∈ mentioned_handles text /\ h ∉ allowed_handles.

(** From the words of the specification: the increments of one reply when
    each of the three boundaries is tested on its own. *)
Definition count_reply_independent (now : Z) (reply_created : Z) (c : Contributor)
  : Contributor :=
  let c := add_all c in
  let c := if reply_created >? one_month_ago now then add_1m c else c in
  let c := if reply_created >? one_week_ago now then add_1w c else c in
  if reply_created >? yesterday now then add_1d c else c.

(** The scan of the replies with the independent tests in place of the
    nested ones. *)
Definition scan_reply_independent (now : Z)
    (contributor_stats : gmap string Contributor) (reply : Reply)
  : result (gmap string Contributor) :=
  raw ← json_loads reply;
  let user := twitter_username reply in
  contributor_stats ←
    match contributor_stats !! user with
    | Some _ => Ok contributor_stats
    | None =>
        c ← new_contributor user raw;
        mret (<[user := c]> contributor_stats)
    end;
  contributor ← match contributor_stats !! twitter_username reply with
                | Some c => Ok c
                | None => Raise (KeyError (twitter_username reply))
                end;
  mret (<[twitter_username reply :=
            count_reply_independent now (reply_created reply) contributor]>
          contributor_stats).

Fixpoint scan_replies_independent (now : Z)
    (contributor_stats : gmap string Contributor) (rs : list Reply)
  : result (gmap string Contributor) :=
  match rs with
  | [] => Ok contributor_stats
  | reply :: rs' =>
      contributor_stats ← scan_reply_independent now contributor_stats reply;
      scan_replies_independent now contributor_stats rs'
  end.

(** The nesting of the counters of an entry. *)
Definition nested_counters (c : Contributor) : Prop :=
  c_1d c <= c_1w c /\ c_1w c <= c_1m c /\ c_1m c <= c_all c.

(** The payload carries a nested ['user'] dictionary with both image keys. *)
Definition has_nested_profile (raw : gmap string json) : bool :=
  match raw !! "user" with
  | Some (JObj u) =>
      bool_decide (is_Some (u !! "profile_image_url")) &&
      bool_decide (is_Some (u !! "profile_image_url_https"))
  | _ => false
  end.

(** The same world with a redis whose client can be made or not, and whose
    writes succeed or not. *)
Definition set_redis_up (b : bool) (w : World) : World :=
  {| tweets := tweets w; replies := replies w; redis := redis w;
     redis_up := b; redis_writable := redis_writable w;
     twitter := twitter w; clock := clock w;
     statsd := statsd w; log := log w |}.

Definition set_redis_writable (b : bool) (w : World) : World :=
  {| tweets := tweets w; replies := replies w; redis := redis w;
     redis_up := redis_up w; redis_writable := b;
     twitter := twitter w; clock := clock w;
     statsd := statsd w; log := log w |}.

(** The value of [allow_links] that [collect_tweets] passes for a status. *)
Definition allow_links_of (item : Item) : bool :=
  Text.contains "#fxinput" (item_text item).

(** A status whose creation time parses and which carries metadata. *)
Definition storable (item : Item) : Prop :=
  is_Some (item_created_at item) /\ is_Some (item_metadata item).

(** The stored rows of one [tweet_id]. *)
Definition stored_with_id (i : Z) (ts : list Tweet) : list Tweet :=
  filter (fun t => tweet_id t = i) ts.

(** ** Sample data *)

Module Sample.

Definition settings : Settings :=
  {| STAGE := false;
     CC_TWEETS_PERPAGE := 100;
     SUMO_LANGUAGES := ["en-US"; "pt-BR"; "pt-PT"; "xx"];
     LOCALES := fun l =>
       {| iso639_1 := if String.eqb l "en-US" then Some "en"
                      else if String.prefix "pt" l then Some "pt"
                      else None |};
     CC_MAX_TWEETS := 2;
     CC_IGNORE_USERS := ["spambot"];
     CC_TOP_CONTRIB_SORT := W_1w;
     CC_TOP_CONTRIB_LIMIT := 2;
     CC_TOP_CONTRIB_CACHE_KEY := "customercare-top-contributors" |}.

Definition status (t : string) (author : string) : Item :=
  {| item_id := 1001; item_text := t; item_to_user_id := None;
     item_screen_name := author; item_created_at := Some 1400000000000000;
     item_metadata := Some (Some "en") |}.

Definition tweet (i : Z) (loc : string) (c : Z) : Tweet :=
  {| tweet_id := i; raw_json := status "firefox is slow" "someone";
     locale := loc; created := c |}.

Definition profile : gmap string json :=
  <["user" := JObj (<["profile_image_url" := JStr "http://a/b.png"]>
                   (<["profile_image_url_https" := JStr "https://a/b.png"]> ∅))]> ∅.

Definition day : Z := timedelta_days 1.
Definition now : Z := 16000 * day.

Definition reply (name : string) (raw : gmap string json) (c : Z) : Reply :=
  {| twitter_username := name; reply_raw_json_valid := true;
     reply_raw_json := raw; reply_created := c |}.

Definition world (ts : list Tweet) (rs : list Reply) (page : list Item)
    (up : bool) : World :=
  {| tweets := ts; replies := rs; redis := ∅; redis_up := up;
     redis_writable := up; twitter := fun _ => page; clock := now; statsd := ∅; log := [] |}.

(** The replies of the scenario of the specification. *)
Definition scenario : list Reply :=
  [ reply "A" profile now; reply "A" profile (now - 8 * day);
    reply "A" profile (now - 40 * day);
    reply "B" profile now; reply "B" profile (now - 2 * day) ].

Definition table : list Tweet :=
  [ tweet 1 "en" 10; tweet 2 "en" 30; tweet 3 "pt" 5; tweet 4 "en" 20;
    tweet 5 "en" 40; tweet 6 "pt" 6; tweet 7 "pt" 7; tweet 8 "xx" 1 ].

End Sample.

(** ** Further vocabulary *)

(** The reason for which [_filter_tweet] rejects a status, [None] when it
    accepts it: the conditions of the filter in its order, without the
    effects. *)
Definition verdict (settings : Settings) (item : Item) (allow_links : bool)
  : option string :=
  if negb (passes_reply_filter item) then Some "reply_or_mention"
  else if negb (passes_mention_filter item) then Some "reply_or_mention"
  else if is_retweet item then Some "retweet"
  else if negb (passes_link_filter item allow_links) then Some "link"
  else if bool_decide (item_screen_name item ∈ CC_IGNORE_USERS settings)
  then Some "user"
  else None.

(** The row that [collect_tweets] builds from a status, when its creation
    time and its metadata can be read. *)
Definition tweet_of (item : Item) : option Tweet :=
  match item_created_at item, item_metadata item with
  | Some d, Some metadata =>
      Some {| tweet_id := item_id item; raw_json := item;
              locale := default "en" metadata; created := d |}
  | _, _ => None
  end.

(** The cursor of the search: the id of the latest stored tweet. *)
Definition cursor (ts : list Tweet) : option Z :=
  tweet_id <$> head (merge_sort newer_first ts).

(** The page of statuses that [collect_tweets] fetches in a world. *)
Definition page_of (settings : Settings) (w : World) : list Item :=
  twitter w {| q := "firefox OR #fxinput OR @firefoxbrasil OR #firefoxos";
               count := CC_TWEETS_PERPAGE settings;
               result_type := "recent";
               since_id := cursor (tweets w) |}.

(** The log record that [collect_tweets] writes before the search. *)
Definition cursor_record (settings : Settings) (ts : list Tweet) : log_record :=
  match cursor ts with
  | Some i => LogInfo_retrieving_tweets i
  | None => LogDebug_no_existing_tweets (CC_TWEETS_PERPAGE settings)
  end.

(** A language of [SUMO_LANGUAGES] has the code [loc]. *)
Definition mapped (settings : Settings) (loc : string) : Prop :=
  exists lang, lang ∈ SUMO_LANGUAGES settings /\
               iso639_1 (LOCALES settings lang) = Some loc.

(** The replies of one user, in the order of the table. *)
Definition replies_of (user : string) (rs : list Reply) : list Reply :=
  filter (fun r => twitter_username r = user) rs.

(** The number of replies created after a boundary. *)
Definition created_after (boundary : Z) (rs : list Reply) : Z :=
  Z.of_nat (length (filter (fun r => boundary < reply_created r) rs)).

(** The payload from which [new_contributor] can read both image keys. *)
Definition usable_profile (raw : gmap string json) : bool :=
  if bool_decide (is_Some (raw !! "from_user"))
  then bool_decide (is_Some (raw !! "profile_image_url")) &&
       bool_decide (is_Some (raw !! "profile_image_url_https"))
  else has_nested_profile raw.

(** An entry with the replies [rs] counted into it: all of them under
    [all], those created after each boundary under the other keys. *)
Definition tally (now : Z) (rs : list Reply) (c : Contributor) : Contributor :=
  {| c_twitter_username := c_twitter_username c;
     avatar := avatar c;
     avatar_https := avatar_https c;
     c_all := c_all c + Z.of_nat (length rs);
     c_1m := c_1m c + created_after (one_month_ago now) rs;
     c_1w := c_1w c + created_after (one_week_ago now) rs;
     c_1d := c_1d c + created_after (yesterday now) rs |}.

(** Equality of statuses and of rows is decidable. *)
Global Instance Item_eq_dec : EqDecision Item.
Proof. solve_decision. Defined.

Global Instance Tweet_eq_dec : EqDecision Tweet.
Proof. solve_decision. Defined.

(** ** Further sample data *)

Module Cases.

(** A table and a page with a link, a new status and its repetition. *)
Definition mixed_page : World :=
  Sample.world Sample.table []
    [ Sample.status "see http://t.co/x" "someone";
      Sample.status "firefox is slow" "someone";
      Sample.status "firefox is slow" "someone" ] true.

(** A status without creation time and metadata. *)
Definition unreadable (i : Z) (t : string) : Item :=
  {| item_id := i; item_text := t; item_to_user_id := None;
     item_screen_name := "someone"; item_created_at := None;
     item_metadata := None |}.

(** Four posts of one locale with one creation time. *)
Definition same_time : list Tweet :=
  [ Sample.tweet 1 "en" 10; Sample.tweet 2 "en" 10; Sample.tweet 3 "en" 10;
    Sample.tweet 4 "en" 10; Sample.tweet 5 "xx" 3 ].

End Cases.

(** * Properties *)

(** ** The filter *)

Section Filter.

Variable settings : Settings.

Lemma startswith_app_l p p' s :
  Text.startswith (p ++ p') s = true -> Text.startswith p s = true.
Proof.
  revert s. induction p as [|a p IH]; intros s; [reflexivity|].
  destruct s as [|b s]; simpl; [discriminate|].
  intros [-> H]%andb_true_iff. rewrite (IH _ H). reflexivity.
Qed.

Lemma contains_app_l p p' s :
  Text.contains p s = false -> Text.contains (p ++ p') s = false.
Proof.
  induction s as [|c s IH].
  - destruct p; simpl; [discriminate|reflexivity].
  - intros H. cbn [Text.contains] in *.
    apply orb_false_iff in H as [H1 H2].
    apply orb_false_iff. split; [|auto].
    destruct (Text.startswith (p ++ p') (String c s)) eqn:E; [|reflexivity].
    apply startswith_app_l in E. congruence.
Qed.

(** A text without an occurrence of [old] is left as it is. *)
Lemma replace_absent old new s :
  Text.contains old s = false -> Text.replace old new s = s.
Proof.
  unfold Text.replace. induction s as [|c s IH]; [reflexivity|].
  intros H. cbn [Text.contains] in H.
  apply orb_false_iff in H as [H1 H2].
  cbn [Text.replace_from]. rewrite H1, (IH H2). reflexivity.
Qed.

Lemma filtered_text_eq t :
  filtered_text t =
  Text.replace "@firefoxbrasil" "" (Text.replace "@firefox" "" t).
Proof. reflexivity. Qed.

Lemma filtered_text_absent t :
  Text.contains "@firefox" t = false -> filtered_text t = t.
Proof.
  intros H. rewrite filtered_text_eq, (replace_absent _ _ _ H).
  apply replace_absent. exact (contains_app_l "@firefox" "brasil" t H).
Qed.

Lemma reject_at_mention item allow_links :
  passes_reply_filter item = true ->
  passes_mention_filter item = false ->
  rejects settings item allow_links "reply_or_mention".
Proof.
  unfold passes_reply_filter, passes_mention_filter, rejects, _filter_tweet.
  intros Hr%negb_true_iff Hm%negb_false_iff w. rewrite Hr, Hm. reflexivity.
Qed.

Lemma reject_at_retweet item allow_links :
  passes_reply_filter item = true ->
  passes_mention_filter item = true ->
  is_retweet item = true ->
  rejects settings item allow_links "retweet".
Proof.
  unfold passes_reply_filter, passes_mention_filter, is_retweet, rejects,
    _filter_tweet.
  intros Hr%negb_true_iff Hm%negb_true_iff Ht w. rewrite Hr, Hm, Ht.
  reflexivity.
Qed.

(** The outcome once the four text and reply checks are passed. *)
Lemma filter_at_author item allow_links w :
  passes_reply_filter item = true ->
  passes_mention_filter item = true ->
  is_retweet item = false ->
  passes_link_filter item allow_links = true ->
  _filter_tweet settings item allow_links w =
  if bool_decide (item_screen_name item ∈ CC_IGNORE_USERS settings)
  then (Ok None,
        set_statsd (incr "customercare.tweet.rejected.user" (statsd w)) w)
  else (Ok (Some item), w).
Proof.
  unfold passes_reply_filter, passes_mention_filter, is_retweet,
    passes_link_filter, _filter_tweet.
  intros Hr%negb_true_iff Hm%negb_true_iff Ht Hl%negb_true_iff.
  rewrite Hr, Hm, Ht, Hl. case_bool_decide; reflexivity.
Qed.

(** The filter changes nothing but the statsd counters, always returns,
    and returns the status itself or [None]. *)
Lemma filter_outcome item allow_links w :
  exists o s, _filter_tweet settings item allow_links w = (Ok o, set_statsd s w)
              /\ (o = None \/ o = Some item).
Proof.
  assert (Hid : w = set_statsd (statsd w) w) by (destruct w; reflexivity).
  unfold _filter_tweet.
  repeat match goal with
         | |- context [if ?b then _ else _] => destruct b
         end;
    try (eexists None, _; split; [reflexivity|auto]).
  exists (Some item), (statsd w). rewrite <- Hid. auto.
Qed.

(** The text enters the filter through its lowercase form only. *)
Lemma filter_text_case item t allow_links reason :
  Text.lower t = Text.lower (item_text item) ->
  rejects settings (with_text t item) allow_links reason <->
  rejects settings item allow_links reason.
Proof.
  intros Ht. unfold rejects, _filter_tweet. cbn [with_text item_text
    item_to_user_id item_screen_name]. rewrite Ht.
  repeat match goal with
         | |- context [if ?b then _ else _] => destruct b
         end; try tauto.
  split; intros H; specialize (H (Sample.world [] [] [] true)); discriminate.
Qed.

End Filter.

(** C1, as stated, fails: the status ["RT @someone: check this out"] without
    a reply target is a retweet by its text, and the filter rejects it under
    [reply_or_mention], not under [retweet], because the mention check comes
    first. *)
Lemma rt_with_mention_counterexample :
  item_to_user_id (Sample.status "RT @someone: check this out" "someone") = None /\
  is_retweet (Sample.status "RT @someone: check this out" "someone") = true /\
  rejects Sample.settings (Sample.status "RT @someone: check this out" "someone")
    false "reply_or_mention" /\
  ~ rejects Sample.settings (Sample.status "RT @someone: check this out" "someone")
    false "retweet".
Proof.
  split; [reflexivity|]. split; [reflexivity|]. split.
  - apply reject_at_mention; reflexivity.
  - intros H. specialize (H (Sample.world [] [] [] true)).
    apply (f_equal (fun r => statsd (snd r) !! "customercare.tweet.rejected.retweet")) in H.
    vm_compute in H. discriminate.
Qed.

(** C1, amended: a status that passes the reply check and the mention check
    and whose lowercased text matches [^rt\W] or contains ["(via "] is
    rejected under [retweet], whatever its links, its author and
    [allow_links]. *)
Theorem retweet_rejected_after_mention_check settings item allow_links :
  passes_reply_filter item = true ->
  passes_mention_filter item = true ->
  RT_REGEX_search (Text.lower (item_text item)) = true \/
  Text.contains "(via " (Text.lower (item_text item)) = true ->
  rejects settings item allow_links "retweet".
Proof.
  intros Hr Hm Ht. apply reject_at_retweet; [done..|].
  unfold is_retweet. apply orb_true_iff. exact Ht.
Qed.

Lemma retweet_rejected_after_mention_check_witness :
  rejects Sample.settings
    (Sample.status "RT: firefox crashed http://t.co/x (via someone)" "spambot")
    false "retweet".
Proof.
  apply retweet_rejected_after_mention_check;
    [reflexivity | reflexivity | left; reflexivity].
Defined.

(** C2, as stated, fails: ["I love @firefoxrocks"] mentions the account
    [firefoxrocks], which is not in the allow-list, passes the reply check,
    and is accepted. *)
Lemma firefoxrocks_counterexample :
  passes_reply_filter (Sample.status "I love @firefoxrocks" "someone") = true /\
  mentions_other_account "I love @firefoxrocks" /\
  accepts Sample.settings (Sample.status "I love @firefoxrocks" "someone") false /\
  ~ rejects Sample.settings (Sample.status "I love @firefoxrocks" "someone")
      false "reply_or_mention".
Proof.
  assert (Ha : accepts Sample.settings
                 (Sample.status "I love @firefoxrocks" "someone") false).
  { intros w. rewrite filter_at_author by reflexivity. reflexivity. }
  split; [reflexivity|]. split; [|split; [exact Ha|]].
  - exists "firefoxrocks". split.
    + change (mentioned_handles "I love @firefoxrocks") with ["firefoxrocks"].
      constructor.
    + intros H. apply (bool_decide_pack _) in H. vm_compute in H. exact H.
  - intros H. specialize (H (Sample.world [] [] [] true)).
    rewrite Ha in H. discriminate.
Qed.

(** C2, amended: a status that passes the reply check is rejected under
    [reply_or_mention] when its lowercased text, after the removal of every
    literal ["@firefox"] and then of every literal ["@firefoxbrasil"], still
    has an [@] at its start or after a non-word character; so it is when the
    lowercased text has such an [@] and no literal ["@firefox"] at all. *)
Theorem mention_rejected_after_stripping settings item allow_links :
  passes_reply_filter item = true ->
  MENTION_REGEX_search (filtered_text (Text.lower (item_text item))) = true \/
  (MENTION_REGEX_search (Text.lower (item_text item)) = true /\
   Text.contains "@firefox" (Text.lower (item_text item)) = false) ->
  rejects settings item allow_links "reply_or_mention".
Proof.
  intros Hr Hm. apply reject_at_mention; [exact Hr|].
  unfold passes_mention_filter. apply negb_false_iff.
  destruct Hm as [Hm|[Hm Hc]]; [exact Hm|].
  rewrite (filtered_text_absent _ Hc). exact Hm.
Qed.

Lemma mention_rejected_after_stripping_witness :
  rejects Sample.settings
    (Sample.status "@Firefox and @mozilla are great" "someone") false
    "reply_or_mention" /\
  rejects Sample.settings
    (Sample.status "thanks @mozilla" "someone") false "reply_or_mention".
Proof.
  split.
  - apply mention_rejected_after_stripping; [reflexivity | left; reflexivity].
  - apply mention_rejected_after_stripping;
      [reflexivity | right; split; reflexivity].
Defined.

(** C9, as stated, fails: the handle [SpamBot] differs from the entry
    [spambot] of the ignore list in letter case only, and the status is
    accepted. *)
Lemma blocked_author_case_counterexample :
  Text.lower "SpamBot" = Text.lower "spambot" /\
  "spambot" ∈ CC_IGNORE_USERS Sample.settings /\
  accepts Sample.settings (Sample.status "firefox is slow" "SpamBot") false /\
  ~ rejects Sample.settings (Sample.status "firefox is slow" "SpamBot") false "user".
Proof.
  assert (Ha : accepts Sample.settings
                 (Sample.status "firefox is slow" "SpamBot") false).
  { intros w. rewrite filter_at_author by reflexivity. reflexivity. }
  split; [reflexivity|]. split; [constructor|]. split; [exact Ha|].
  intros H. specialize (H (Sample.world [] [] [] true)).
  rewrite Ha in H. discriminate.
Qed.

(** C9, amended: the checks on the text are insensitive to letter case --
    a status whose text differs from that of [item] in letter case only is
    rejected for the same reasons as [item] -- and the check of the author
    is an exact membership: once the earlier checks are passed, the status
    is rejected under [user] when its handle is literally in the ignore
    list and accepted when it is not. *)
Theorem text_case_insensitive_author_exact settings item t allow_links :
  Text.lower t = Text.lower (item_text item) ->
  (forall reason,
     rejects settings (with_text t item) allow_links reason <->
     rejects settings item allow_links reason) /\
  (passes_reply_filter item = true ->
   passes_mention_filter item = true ->
   is_retweet item = false ->
   passes_link_filter item allow_links = true ->
   (item_screen_name item ∈ CC_IGNORE_USERS settings ->
    rejects settings (with_text t item) allow_links "user") /\
   (item_screen_name item ∉ CC_IGNORE_USERS settings ->
    accepts settings (with_text t item) allow_links)).
Proof.
  intros Ht. split.
  - intros reason. apply filter_text_case, Ht.
  - intros Hr Hm Hrt Hl.
    assert (Hw : forall w, _filter_tweet settings (with_text t item) allow_links w =
      if bool_decide (item_screen_name item ∈ CC_IGNORE_USERS settings)
      then (Ok None,
            set_statsd (incr "customercare.tweet.rejected.user" (statsd w)) w)
      else (Ok (Some (with_text t item)), w)).
    { intros w.
      rewrite (filter_at_author settings (with_text t item));
        [reflexivity|..];
        unfold passes_reply_filter, passes_mention_filter, is_retweet,
          passes_link_filter in *;
        cbn [with_text item_text item_to_user_id]; rewrite ?Ht; assumption. }
    split; intros Hin w; rewrite Hw.
    + rewrite bool_decide_eq_true_2 by exact Hin. reflexivity.
    + rewrite bool_decide_eq_false_2 by exact Hin. reflexivity.
Qed.

Lemma text_case_insensitive_author_exact_witness :
  (forall reason,
     rejects Sample.settings
       (with_text "FIREFOX is Slow" (Sample.status "firefox is slow" "spambot"))
       false reason <->
     rejects Sample.settings (Sample.status "firefox is slow" "spambot")
       false reason) /\
  rejects Sample.settings
    (with_text "FIREFOX is Slow" (Sample.status "firefox is slow" "spambot"))
    false "user".
Proof.
  destruct (text_case_insensitive_author_exact Sample.settings
              (Sample.status "firefox is slow" "spambot") "FIREFOX is Slow" false
              eq_refl) as [H1 H2].
  split; [exact H1|].
  apply H2; [reflexivity..|]. constructor.
Defined.

(** ** Retention *)

Global Instance newer_first_trans : Transitive newer_first.
Proof. unfold newer_first. intros a b c. lia. Qed.

Global Instance newer_first_total : Total newer_first.
Proof. unfold newer_first. intros a b. lia. Qed.

(** A step of a loop that ends normally hands its world to the rest. *)
Lemma for_each_cons {A} (body : A -> M unit) x xs w w1 :
  body x w = (Ok tt, w1) ->
  for_each (x :: xs) body w = for_each xs body w1.
Proof. intros E. cbn [for_each]. unfold mbind, M_bind. rewrite E. reflexivity. Qed.

Section Lists.

Context {A : Type} (P : A -> Prop) `{!forall x, Decision (P x)}.

Lemma filter_keeps_all (l : list A) : Forall P l -> filter P l = l.
Proof.
  induction 1 as [|x l Hx _ IH]; [reflexivity|].
  rewrite filter_cons_True by exact Hx. f_equal. exact IH.
Qed.

Lemma filter_keeps_none (l : list A) : Forall (fun x => ~ P x) l -> filter P l = [].
Proof.
  induction 1 as [|x l Hx _ IH]; [reflexivity|].
  rewrite filter_cons_False by exact Hx. exact IH.
Qed.

End Lists.

(** In a table with distinct creation times, the rows created after the
    row of rank [n] are the [n] first rows of the descending order. *)
Lemma newest_cut (l : list Tweet) (n : nat) (o : Tweet) :
  NoDup (created <$> l) ->
  merge_sort newer_first l !! n = Some o ->
  filter (fun t => created o < created t) (merge_sort newer_first l) =
  take n (merge_sort newer_first l).
Proof.
  intros Hnd Hn.
  pose proof (StronglySorted_merge_sort newer_first l) as Hs.
  assert (Hnd' : NoDup (created <$> merge_sort newer_first l))
    by (rewrite merge_sort_Permutation; exact Hnd).
  revert Hs Hnd'. rewrite <- (take_drop_middle _ _ _ Hn) at 1 2 3.
  generalize (take n (merge_sort newer_first l)) as l1.
  generalize (drop (S n) (merge_sort newer_first l)) as l2.
  intros l2 l1 Hs Hnd'.
  apply StronglySorted_app in Hs as (H12 & _ & H2).
  apply StronglySorted_cons in H2 as [H2 _].
  rewrite fmap_app, fmap_cons in Hnd'.
  apply NoDup_app in Hnd' as (_ & Hne & _).
  rewrite filter_app, filter_keeps_all, filter_keeps_none.
  - apply app_nil_r.
  - constructor; [lia|].
    eapply Forall_impl; [exact H2|]. unfold newer_first. intros x; simpl. lia.
  - apply Forall_forall. intros x Hx.
    assert (created o <= created x) by (apply (H12 x o); [exact Hx|constructor]).
    assert (created x <> created o).
    { intros E. apply (Hne (created x)).
      - apply list_elem_of_fmap_2, Hx.
      - rewrite E. constructor. }
    lia.
Qed.

Lemma cut_newest (l : list Tweet) (n : nat) (o : Tweet) :
  NoDup (created <$> l) ->
  merge_sort newer_first l !! n = Some o ->
  filter (fun t => created o < created t) l ≡ₚ take n (merge_sort newer_first l).
Proof.
  intros Hnd Hn. rewrite <- (newest_cut l n o Hnd Hn).
  apply filter_Permutation. symmetry. apply merge_sort_Permutation.
Qed.

Lemma cut_length (l : list Tweet) (n : nat) (o : Tweet) :
  NoDup (created <$> l) ->
  merge_sort newer_first l !! n = Some o ->
  length (filter (fun t => created o < created t) l) = n.
Proof.
  intros Hnd Hn. rewrite (cut_newest l n o Hnd Hn).
  apply length_take_le, Nat.lt_le_incl. eapply lookup_lt_Some, Hn.
Qed.

Section Retention.

Variable settings : Settings.
Variable loc : string.

Lemma get_oldest_spec l n w :
  _get_oldest_tweet l n w =
  (Ok (merge_sort newer_first (of_locale l (tweets w)) !! n), w).
Proof.
  unfold _get_oldest_tweet, try_except, mbind, M_bind, read. simpl.
  destruct (merge_sort newer_first (of_locale l (tweets w)) !! n);
    reflexivity.
Qed.

Lemma purge_locale_spec lang w :
  purge_locale settings lang w =
  match iso639_1 (LOCALES settings lang) with
  | None => (Ok tt, w)
  | Some l =>
      if bool_decide (l = "") then (Ok tt, w)
      else match merge_sort newer_first (of_locale l (tweets w)) !! (CC_MAX_TWEETS settings) with
           | Some o =>
               (Ok tt,
                set_tweets (delete_lte l (created o) (tweets w))
                  (set_log (LogDebug_truncating (created o) l :: log w) w))
           | None => (Ok tt, w)
           end
  end.
Proof.
  unfold purge_locale.
  destruct (iso639_1 (LOCALES settings lang)) as [l|]; [|reflexivity].
  case_bool_decide; [reflexivity|].
  unfold mbind, M_bind. rewrite get_oldest_spec.
  destruct (merge_sort newer_first (of_locale l (tweets w)) !! (CC_MAX_TWEETS settings));
    reflexivity.
Qed.

Lemma of_locale_delete_other l c ts :
  l <> loc -> of_locale loc (delete_lte l c ts) = of_locale loc ts.
Proof.
  intros Hne. unfold of_locale, delete_lte. rewrite list_filter_filter.
  apply list_filter_iff. intros x. split; [tauto|].
  intros Hx. split; [exact Hx|]. intros [Hl _]. congruence.
Qed.

Lemma of_locale_delete_same c ts :
  of_locale loc (delete_lte loc c ts) =
  filter (fun t => c < created t) (of_locale loc ts).
Proof.
  unfold of_locale, delete_lte. rewrite !list_filter_filter.
  apply list_filter_iff. intros x. split.
  - intros [Hl Hn]. split; [|exact Hl].
    destruct (decide (c < created x)); [done|]. exfalso. apply Hn.
    split; [exact Hl|lia].
  - intros [Hc Hl]. split; [exact Hl|]. intros [_ Hle]. lia.
Qed.

Lemma sorted_length l :
  length (merge_sort newer_first l) = length l.
Proof. apply Permutation_length, merge_sort_Permutation. Qed.

(** One language either leaves the rows of [loc] as they are or, when it
    maps to [loc], cuts them after the row of rank [CC_MAX_TWEETS]. *)
Lemma purge_step lang w :
  exists w', purge_locale settings lang w = (Ok tt, w') /\
    (of_locale loc (tweets w') = of_locale loc (tweets w) \/
     (iso639_1 (LOCALES settings lang) = Some loc /\ loc <> "" /\
      exists o, merge_sort newer_first (of_locale loc (tweets w)) !! (CC_MAX_TWEETS settings) = Some o /\
        of_locale loc (tweets w') =
        filter (fun t => created o < created t) (of_locale loc (tweets w)))).
Proof.
  rewrite purge_locale_spec.
  destruct (iso639_1 (LOCALES settings lang)) as [l|] eqn:El; [|eauto].
  case_bool_decide as Hl; [eauto|].
  destruct (merge_sort newer_first (of_locale l (tweets w)) !! (CC_MAX_TWEETS settings)) as [o|] eqn:Eo;
    [|eauto].
  eexists; split; [reflexivity|]. cbn [tweets set_tweets].
  destruct (decide (l = loc)) as [->|Hne].
  - right. split; [reflexivity|]. split; [exact Hl|].
    exists o. split; [exact Eo|]. apply of_locale_delete_same.
  - left. apply of_locale_delete_other, Hne.
Qed.

Lemma purge_small langs w :
  (length (of_locale loc (tweets w)) <= (CC_MAX_TWEETS settings))%nat ->
  exists w', for_each langs (purge_locale settings) w = (Ok tt, w') /\
             of_locale loc (tweets w') = of_locale loc (tweets w).
Proof.
  revert w. induction langs as [|lang langs IH]; intros w Hle.
  - exists w. split; reflexivity.
  - destruct (purge_step lang w) as (w1 & E & [Hu|(_ & _ & o & Ho & _)]).
    + rewrite (for_each_cons _ _ _ _ _ E).
      destruct (IH w1) as (w' & E' & Hu'); [rewrite Hu; exact Hle|].
      exists w'. split; [exact E'|]. rewrite Hu', Hu. reflexivity.
    + apply lookup_lt_Some in Ho. rewrite sorted_length in Ho. lia.
Qed.

Lemma purge_big langs w :
  loc <> "" ->
  ((CC_MAX_TWEETS settings) < length (of_locale loc (tweets w)))%nat ->
  NoDup (created <$> of_locale loc (tweets w)) ->
  (exists lang, lang ∈ langs /\ iso639_1 (LOCALES settings lang) = Some loc) ->
  exists w' o, for_each langs (purge_locale settings) w = (Ok tt, w') /\
    merge_sort newer_first (of_locale loc (tweets w)) !! (CC_MAX_TWEETS settings) = Some o /\
    of_locale loc (tweets w') =
    filter (fun t => created o < created t) (of_locale loc (tweets w)).
Proof.
  intros Hloc. revert w.
  induction langs as [|lang langs IH]; intros w Hlt Hnd (l & Hl & Hm).
  - inversion Hl.
  - destruct (decide (iso639_1 (LOCALES settings lang) = Some loc)) as [Hy|Hn].
    + destruct (lookup_lt_is_Some_2
                  (merge_sort newer_first (of_locale loc (tweets w))) (CC_MAX_TWEETS settings))
        as [o Ho]; [rewrite sorted_length; exact Hlt|].
      pose proof (purge_locale_spec lang w) as E.
      rewrite Hy, bool_decide_eq_false_2, Ho in E by exact Hloc.
      rewrite (for_each_cons _ _ _ _ _ E).
      match type of E with _ = (_, ?w1) => set (w1' := w1) in * end.
      assert (Hc : of_locale loc (tweets w1') =
                   filter (fun t => created o < created t) (of_locale loc (tweets w)))
        by apply of_locale_delete_same.
      destruct (purge_small langs w1') as (w' & E' & Hu').
      { rewrite Hc, (cut_length _ _ _ Hnd Ho). reflexivity. }
      exists w', o. split; [exact E'|]. split; [exact Ho|].
      rewrite Hu'. exact Hc.
    + destruct (purge_step lang w) as (w1 & E & [Hu|(Hy & _)]); [|done].
      rewrite (for_each_cons _ _ _ _ _ E).
      destruct (IH w1) as (w' & o & E' & Ho & Hc).
      * rewrite Hu. exact Hlt.
      * rewrite Hu. exact Hnd.
      * exists l. split; [|exact Hm].
        apply elem_of_cons in Hl as [->|Hl]; [done|exact Hl].
      * exists w', o. rewrite Hu in Ho, Hc. auto.
Qed.

End Retention.

(** C3: for a locale [loc] that a language of [SUMO_LANGUAGES] maps to and
    whose stored posts have pairwise distinct creation times, one run of
    [purge_tweets] ends normally; when [loc] has more than [CC_MAX_TWEETS]
    posts, exactly [CC_MAX_TWEETS] of them remain and they are the newest
    ones; when it has at most [CC_MAX_TWEETS] posts, all of them remain. *)
Theorem purge_keeps_newest settings loc w :
  loc <> "" ->
  (exists lang, lang ∈ SUMO_LANGUAGES settings /\
                iso639_1 (LOCALES settings lang) = Some loc) ->
  NoDup (created <$> of_locale loc (tweets w)) ->
  exists w', purge_tweets settings w = (Ok tt, w') /\
    ((CC_MAX_TWEETS settings < length (of_locale loc (tweets w)))%nat ->
     length (of_locale loc (tweets w')) = CC_MAX_TWEETS settings /\
     of_locale loc (tweets w') ≡ₚ
       take (CC_MAX_TWEETS settings)
            (merge_sort newer_first (of_locale loc (tweets w)))) /\
    ((length (of_locale loc (tweets w)) <= CC_MAX_TWEETS settings)%nat ->
     of_locale loc (tweets w') = of_locale loc (tweets w)).
Proof.
  intros Hloc Hmap Hnd. unfold purge_tweets.
  destruct (Nat.lt_ge_cases (CC_MAX_TWEETS settings)
              (length (of_locale loc (tweets w)))) as [Hlt|Hle].
  - destruct (purge_big settings loc _ w Hloc Hlt Hnd Hmap)
      as (w' & o & E & Ho & Hc).
    exists w'. split; [exact E|]. split; [|lia].
    intros _. rewrite Hc. split.
    + apply (cut_length _ _ _ Hnd Ho).
    + apply (cut_newest _ _ _ Hnd Ho).
  - destruct (purge_small settings loc (SUMO_LANGUAGES settings) w Hle)
      as (w' & E & Hu).
    exists w'. split; [exact E|]. split; [lia|]. intros _. exact Hu.
Qed.

Lemma purge_keeps_newest_witness :
  exists w', purge_tweets Sample.settings (Sample.world Sample.table [] [] true)
             = (Ok tt, w') /\
    tweet_id <$> of_locale "en" (tweets w') = [2; 5].
Proof.
  destruct (purge_keeps_newest Sample.settings "en"
              (Sample.world Sample.table [] [] true)) as (w' & E & _ & _).
  - discriminate.
  - exists "en-US". split; [constructor|reflexivity].
  - apply (bool_decide_unpack _). vm_compute. exact I.
  - exists w'. split; [exact E|].
    apply (f_equal snd) in E. cbn [snd] in E. subst w'. vm_compute. reflexivity.
Defined.

(** ** Contributor statistics *)

Global Instance ranks_before_trans sort_key : Transitive (ranks_before sort_key).
Proof. unfold ranks_before. intros a b c. lia. Qed.

Global Instance ranks_before_total sort_key : Total (ranks_before sort_key).
Proof. unfold ranks_before. intros a b. lia. Qed.

Section Stats.

Variable settings : Settings.

Lemma scan_reply_spec now m r :
  scan_reply now m r =
  if reply_raw_json_valid r then
  match m !! twitter_username r with
  | Some c =>
      Ok (<[twitter_username r := count_reply now (reply_created r) c]> m)
  | None =>
      match new_contributor (twitter_username r) (reply_raw_json r) with
      | Ok c =>
          Ok (<[twitter_username r := count_reply now (reply_created r) c]>
                (<[twitter_username r := c]> m))
      | Raise e => Raise e
      end
  end
  else Raise ValueError.
Proof.
  unfold scan_reply, json_loads.
  destruct (reply_raw_json_valid r); [|reflexivity].
  destruct (m !! twitter_username r) as [c|] eqn:E; simpl.
  - rewrite E. reflexivity.
  - destruct (new_contributor _ _) as [c|e]; simpl; [|reflexivity].
    rewrite lookup_insert_eq. reflexivity.
Qed.

Lemma scan_reply_independent_spec now m r :
  scan_reply_independent now m r =
  if reply_raw_json_valid r then
  match m !! twitter_username r with
  | Some c =>
      Ok (<[twitter_username r :=
              count_reply_independent now (reply_created r) c]> m)
  | None =>
      match new_contributor (twitter_username r) (reply_raw_json r) with
      | Ok c =>
          Ok (<[twitter_username r :=
                  count_reply_independent now (reply_created r) c]>
                (<[twitter_username r := c]> m))
      | Raise e => Raise e
      end
  end
  else Raise ValueError.
Proof.
  unfold scan_reply_independent, json_loads.
  destruct (reply_raw_json_valid r); [|reflexivity].
  destruct (m !! twitter_username r) as [c|] eqn:E; simpl.
  - rewrite E. reflexivity.
  - destruct (new_contributor _ _) as [c|e]; simpl; [|reflexivity].
    rewrite lookup_insert_eq. reflexivity.
Qed.

(** The boundaries are ordered: the day within the week within the month. *)
Lemma boundaries_ordered now :
  one_month_ago now < one_week_ago now /\ one_week_ago now < yesterday now.
Proof. unfold one_month_ago, one_week_ago, yesterday, timedelta_days. lia. Qed.

Lemma count_reply_independent_eq now t c :
  count_reply_independent now t c = count_reply now t c.
Proof.
  pose proof (boundaries_ordered now) as [H1 H2].
  unfold count_reply_independent, count_reply.
  destruct (Z.gtb_spec t (one_month_ago now)),
    (Z.gtb_spec t (one_week_ago now)),
    (Z.gtb_spec t (yesterday now)); first [reflexivity | lia].
Qed.

Lemma new_contributor_zero user raw c :
  new_contributor user raw = Ok c ->
  c_all c = 0 /\ c_1m c = 0 /\ c_1w c = 0 /\ c_1d c = 0.
Proof.
  unfold new_contributor.
  destruct (if bool_decide _ then _ else _) as [d|]; simpl; [|discriminate].
  destruct (subscript d "profile_image_url"); simpl; [|discriminate].
  destruct (subscript d "profile_image_url_https"); simpl; [|discriminate].
  intros [= <-]. auto.
Qed.

Lemma count_reply_nested now t c :
  nested_counters c -> nested_counters (count_reply now t c).
Proof.
  unfold nested_counters, count_reply.
  destruct (t >? one_month_ago now), (t >? one_week_ago now),
    (t >? yesterday now); simpl; lia.
Qed.

Lemma scan_reply_nested now m r m' :
  map_Forall (fun _ c => nested_counters c) m ->
  scan_reply now m r = Ok m' ->
  map_Forall (fun _ c => nested_counters c) m'.
Proof.
  intros Hm. rewrite scan_reply_spec.
  destruct (reply_raw_json_valid r); [|discriminate].
  destruct (m !! twitter_username r) as [c|] eqn:E.
  - intros [= <-]. apply map_Forall_insert_2; [|exact Hm].
    apply count_reply_nested. exact (Hm _ _ E).
  - destruct (new_contributor _ _) as [c|e] eqn:En; [|discriminate].
    intros [= <-].
    assert (nested_counters c).
    { apply new_contributor_zero in En. unfold nested_counters. lia. }
    repeat apply map_Forall_insert_2; auto using count_reply_nested.
Qed.

Lemma scan_replies_nested now rs m m' :
  map_Forall (fun _ c => nested_counters c) m ->
  scan_replies now m rs = Ok m' ->
  map_Forall (fun _ c => nested_counters c) m'.
Proof.
  revert m. induction rs as [|r rs IH]; intros m Hm; cbn [scan_replies].
  - intros [= <-]. exact Hm.
  - destruct (scan_reply now m r) as [m1|e] eqn:E; simpl; [|discriminate].
    apply IH. eapply scan_reply_nested; eassumption.
Qed.

(** The run, in terms of the scan. *)
Lemma get_customercare_stats_spec w :
  get_customercare_stats settings w =
  match scan_replies (clock w) ∅ (replies w) with
  | Raise e => (Raise e, w)
  | Ok m =>
      let l := top_contributors settings m in
      if redis_up w && redis_writable w
      then (Ok l,
            set_redis (<[CC_TOP_CONTRIB_CACHE_KEY settings := dumps l]> (redis w)) w)
      else (Ok l,
            set_log (LogError_redis :: log w)
              (set_statsd (incr "redis.error" (statsd w)) w))
  end.
Proof.
  unfold get_customercare_stats, mbind, M_bind, read, lift, try_except,
    redis_client, redis_set. simpl.
  destruct (scan_replies (clock w) ∅ (replies w)) as [m|e]; [|reflexivity].
  destruct (redis_up w) eqn:Eup; simpl; [|reflexivity].
  destruct (redis_writable w) eqn:Ewr; simpl; reflexivity.
Qed.

Lemma top_contributors_elem m c :
  c ∈ top_contributors settings m -> exists user, m !! user = Some c.
Proof.
  unfold top_contributors, values. intros Hc.
  apply subseteq_take in Hc. rewrite merge_sort_Permutation in Hc.
  apply list_elem_of_fmap in Hc as ([user c'] & -> & Hc).
  exists user. apply elem_of_map_to_list in Hc. exact Hc.
Qed.

Lemma returned_list w l :
  (get_customercare_stats settings w).1 = Ok l ->
  exists m, scan_replies (clock w) ∅ (replies w) = Ok m /\
            l = top_contributors settings m.
Proof.
  rewrite get_customercare_stats_spec.
  destruct (scan_replies (clock w) ∅ (replies w)) as [m|e]; [|discriminate].
  destruct (redis_up w && redis_writable w); intros [= <-]; eauto.
Qed.

Lemma scan_replies_app now m (rs1 rs2 : list Reply) :
  scan_replies now m (rs1 ++ rs2)%list =
  m1 ← scan_replies now m rs1; scan_replies now m1 rs2.
Proof.
  revert m. induction rs1 as [|r rs1 IH]; intros m; [reflexivity|].
  cbn [app scan_replies].
  destruct (scan_reply now m r) as [m1|e]; simpl; [apply IH|reflexivity].
Qed.

(** The users of the dictionary are those it had and those of the scan. *)
Lemma scan_replies_users now rs m m' user :
  scan_replies now m rs = Ok m' ->
  is_Some (m' !! user) ->
  is_Some (m !! user) \/ user ∈ twitter_username <$> rs.
Proof.
  revert m. induction rs as [|r rs IH]; intros m; cbn [scan_replies].
  - intros [= <-]. auto.
  - destruct (scan_reply now m r) as [m1|e] eqn:E; simpl; [|discriminate].
    intros Hs Hu. destruct (IH _ Hs Hu) as [H1|H1].
    + destruct (decide (twitter_username r = user)) as [<-|Hne].
      { right. simpl. apply elem_of_cons. auto. }
      left. revert E. rewrite scan_reply_spec.
      destruct (reply_raw_json_valid r); [|discriminate].
      destruct (m !! twitter_username r).
      * intros [= <-]. rewrite lookup_insert_ne in H1; done.
      * destruct (new_contributor _ _); [|discriminate].
        intros [= <-]. rewrite !lookup_insert_ne in H1; done.
    + right. simpl. apply elem_of_cons. auto.
Qed.

Lemma new_contributor_fails user raw :
  raw !! "from_user" = None ->
  has_nested_profile raw = false ->
  exists e, new_contributor user raw = Raise e.
Proof.
  unfold new_contributor, has_nested_profile, getitem. intros -> Hn.
  rewrite bool_decide_eq_false_2 by (intros [? ?]; discriminate).
  destruct (raw !! "user") as [[| | | | |u]|]; simpl; eauto.
  unfold getitem.
  destruct (u !! "profile_image_url"); simpl; eauto.
  destruct (u !! "profile_image_url_https"); simpl; eauto.
  rewrite !bool_decide_eq_true_2 in Hn by eauto. discriminate.
Qed.

End Stats.

(** C4: for every table of replies and every current time, the scan with the
    nested tests and the scan with three independent tests produce the same
    dictionary of contributors, hence the same four counters for every
    contributor (and raise the same exception when a payload is malformed). *)
Theorem nested_equals_independent (now : Z) (rs : list Reply) :
  scan_replies now ∅ rs = scan_replies_independent now ∅ rs.
Proof.
  generalize (∅ : gmap string Contributor) as m.
  induction rs as [|r rs IH]; intros m; [reflexivity|].
  cbn [scan_replies scan_replies_independent].
  rewrite scan_reply_spec, scan_reply_independent_spec.
  destruct (reply_raw_json_valid r); [|reflexivity].
  destruct (m !! twitter_username r) as [c|]; simpl.
  - rewrite count_reply_independent_eq. apply IH.
  - destruct (new_contributor _ _) as [c|e]; simpl; [|reflexivity].
    rewrite count_reply_independent_eq. apply IH.
Qed.

(** C5: every contributor of the list that [get_customercare_stats] returns
    has counters with [1d <= 1w <= 1m <= all]. *)
Theorem counters_nested settings w l c :
  (get_customercare_stats settings w).1 = Ok l ->
  c ∈ l ->
  c_1d c <= c_1w c /\ c_1w c <= c_1m c /\ c_1m c <= c_all c.
Proof.
  intros Hl Hc. apply returned_list in Hl as (m & Hm & ->).
  apply top_contributors_elem in Hc as [user Hu].
  eapply (scan_replies_nested _ _ _ _ (map_Forall_empty _) Hm), Hu.
Qed.

Lemma counters_nested_witness :
  exists l c,
    (get_customercare_stats Sample.settings
       (Sample.world [] Sample.scenario [] true)).1 = Ok l /\
    c ∈ l /\ c_twitter_username c = "A" /\
    c_1d c <= c_1w c /\ c_1w c <= c_1m c /\ c_1m c <= c_all c.
Proof.
  destruct (get_customercare_stats Sample.settings
              (Sample.world [] Sample.scenario [] true)).1 as [l|e] eqn:E;
    [|vm_compute in E; discriminate].
  destruct (l !! 1%nat) as [c|] eqn:Ec;
    [|vm_compute in E; injection E as <-; discriminate].
  exists l, c. split; [reflexivity|].
  assert (Hc : c ∈ l) by (eapply list_elem_of_lookup_2, Ec).
  split; [exact Hc|]. split.
  - vm_compute in E. injection E as <-. injection Ec as <-. reflexivity.
  - exact (counters_nested Sample.settings _ l c E Hc).
Defined.

(** C6: the list that [get_customercare_stats] returns is in descending
    order of the configured counter, ties in descending order of [all], and
    has at most [CC_TOP_CONTRIB_LIMIT] entries. *)
Theorem leaderboard_sorted settings w l :
  (get_customercare_stats settings w).1 = Ok l ->
  StronglySorted (ranks_before (CC_TOP_CONTRIB_SORT settings)) l /\
  (length l <= CC_TOP_CONTRIB_LIMIT settings)%nat.
Proof.
  intros Hl. apply returned_list in Hl as (m & _ & ->).
  unfold top_contributors. split.
  - eapply StronglySorted_app_1_l. rewrite take_drop.
    apply StronglySorted_merge_sort; apply _.
  - rewrite length_take. lia.
Qed.

Lemma leaderboard_sorted_witness :
  exists l,
    (get_customercare_stats Sample.settings
       (Sample.world [] Sample.scenario [] true)).1 = Ok l /\
    StronglySorted (ranks_before W_1w) l /\ (length l <= 2)%nat.
Proof.
  destruct (get_customercare_stats Sample.settings
              (Sample.world [] Sample.scenario [] true)).1 as [l|e] eqn:E;
    [|vm_compute in E; discriminate].
  exists l. split; [reflexivity|].
  exact (leaderboard_sorted Sample.settings _ l E).
Defined.

(** The scenario of the specification: three replies of [A] (now, 8 and 40
    days ago) and two of [B] (now, 2 days ago), sorted by [1w] and cut to
    two entries, give [B] with counters 2, 2, 2, 1 before [A] with counters
    3, 2, 1, 1. *)
Example scenario_leaderboard :
  exists l,
    (get_customercare_stats Sample.settings
       (Sample.world [] Sample.scenario [] true)).1 = Ok l /\
    (fun c => (c_twitter_username c, c_all c, c_1m c, c_1w c, c_1d c)) <$> l =
    [("B", 2, 2, 2, 1); ("A", 3, 2, 1, 1)].
Proof. eexists. split; vm_compute; reflexivity. Qed.

(** C8: when the cache write fails -- the client of redis cannot be made or
    redis refuses the write -- [get_customercare_stats] counts
    [redis.error], logs the error and returns the sorted, cut list of the
    scan, the list it returns when the write succeeds; the cache is
    untouched. *)
Theorem cache_failure_recovered settings w m :
  redis_up w = false \/ redis_writable w = false ->
  scan_replies (clock w) ∅ (replies w) = Ok m ->
  get_customercare_stats settings w =
    (Ok (top_contributors settings m),
     set_log (LogError_redis :: log w)
       (set_statsd (incr "redis.error" (statsd w)) w)) /\
  (get_customercare_stats settings
     (set_redis_writable true (set_redis_up true w))).1 =
    Ok (top_contributors settings m).
Proof.
  intros Hdown Hm. rewrite !get_customercare_stats_spec.
  cbn [set_redis_up set_redis_writable clock replies redis_up redis_writable].
  rewrite Hm.
  assert (E : redis_up w && redis_writable w = false).
  { destruct Hdown as [-> | ->]; [reflexivity|apply andb_false_r]. }
  rewrite E. split; reflexivity.
Qed.

Lemma cache_failure_recovered_witness :
  exists l,
    get_customercare_stats Sample.settings
      (set_redis_writable false (Sample.world [] Sample.scenario [] true)) =
    (Ok l,
     set_log [LogError_redis]
       (set_statsd (incr "redis.error" ∅)
          (set_redis_writable false (Sample.world [] Sample.scenario [] true)))) /\
    (get_customercare_stats Sample.settings
       (Sample.world [] Sample.scenario [] true)).1 = Ok l /\
    (c_twitter_username <$> l) = ["B"; "A"].
Proof.
  destruct (scan_replies Sample.now ∅ Sample.scenario) as [m|e] eqn:Em;
    [|vm_compute in Em; discriminate].
  destruct (cache_failure_recovered Sample.settings
              (set_redis_writable false (Sample.world [] Sample.scenario [] true))
              m (or_intror eq_refl) Em)
    as [H1 H2].
  exists (top_contributors Sample.settings m).
  split; [exact H1|]. split; [exact H2|].
  vm_compute in Em. injection Em as <-. vm_compute. reflexivity.
Defined.

(** C10: a reply of a user not seen earlier in the scan whose payload has
    neither a key ['from_user'] nor a nested ['user'] dictionary with both
    image keys makes [get_customercare_stats] raise; nothing is returned
    and the world, the cache with it, is left as it was. *)
Theorem malformed_payload_aborts settings w (rs1 rs2 : list Reply) (r : Reply) :
  replies w = (rs1 ++ r :: rs2)%list ->
  twitter_username r ∉ twitter_username <$> rs1 ->
  reply_raw_json r !! "from_user" = None ->
  has_nested_profile (reply_raw_json r) = false ->
  exists e, get_customercare_stats settings w = (Raise e, w).
Proof.
  intros Hrs Hnew Hfrom Hprof. rewrite get_customercare_stats_spec, Hrs.
  rewrite scan_replies_app.
  destruct (scan_replies (clock w) ∅ rs1) as [m1|e] eqn:E1; simpl; [|eauto].
  rewrite scan_reply_spec.
  destruct (reply_raw_json_valid r); [|simpl; eauto].
  destruct (m1 !! twitter_username r) as [c|] eqn:Ec.
  - exfalso. destruct (scan_replies_users _ _ _ _ _ E1 (mk_is_Some _ _ Ec))
      as [[? H]|H]; [rewrite lookup_empty in H; discriminate|exact (Hnew H)].
  - destruct (new_contributor_fails (twitter_username r) _ Hfrom Hprof) as [e ->].
    simpl. eauto.
Qed.

Lemma malformed_payload_aborts_witness :
  get_customercare_stats Sample.settings
    (Sample.world [] [Sample.reply "A" Sample.profile Sample.now;
                      Sample.reply "B" ∅ Sample.now] [] true) =
  (Raise (KeyError "user"),
   Sample.world [] [Sample.reply "A" Sample.profile Sample.now;
                    Sample.reply "B" ∅ Sample.now] [] true).
Proof.
  destruct (malformed_payload_aborts Sample.settings
              (Sample.world [] [Sample.reply "A" Sample.profile Sample.now;
                                Sample.reply "B" ∅ Sample.now] [] true)
              [Sample.reply "A" Sample.profile Sample.now] []
              (Sample.reply "B" ∅ Sample.now)) as [e He].
  - reflexivity.
  - apply (bool_decide_unpack _). vm_compute. exact I.
  - reflexivity.
  - reflexivity.
  - rewrite He. f_equal. f_equal.
    apply (f_equal fst) in He. vm_compute in He. injection He as <-. reflexivity.
Defined.

(** ** Collection *)

Section Collection.

Variable settings : Settings.

Lemma Tweet_save_spec t w :
  Tweet_save t w =
  if bool_decide (tweet_id t ∈ tweet_id <$> tweets w)
  then (Raise IntegrityError, w)
  else (Ok tt, set_tweets (tweets w ++ [t]) w).
Proof. reflexivity. Qed.

(** One status of the page: the loop goes on, the table grows by at most
    one row of a new id, and an accepted status has its id stored. *)
Lemma collect_item_step item w :
  storable item ->
  exists w' ext,
    collect_item settings item w = (Ok tt, w') /\
    tweets w' = (tweets w ++ ext)%list /\
    (ext = [] \/
     exists t, ext = [t] /\ tweet_id t = item_id item /\
               item_id item ∉ tweet_id <$> tweets w) /\
    (accepts settings item (allow_links_of item) ->
     item_id item ∈ tweet_id <$> tweets w').
Proof.
  intros [[d Hd] [md Hmd]].
  unfold collect_item, mbind at 1, M_bind at 1, statsd_incr, modify.
  set (w1 := set_statsd _ w).
  destruct (filter_outcome settings item (allow_links_of item) w1)
    as (o & s & Hf & Ho).
  unfold mbind at 1, M_bind at 1. fold (allow_links_of item). rewrite Hf.
  destruct Ho as [->| ->].
  - exists (set_statsd s w1), []. split; [reflexivity|].
    split; [symmetry; apply app_nil_r|]. split; [auto|].
    intros Ha. rewrite (Ha w1) in Hf. discriminate.
  - rewrite Hd, Hmd. unfold mbind, M_bind, mret, M_ret, try_except.
    rewrite Tweet_save_spec. cbn [tweet_id tweets set_statsd].
    case_bool_decide as Hin.
    + rewrite decide_True by reflexivity.
      exists (set_statsd s w1), []. split; [reflexivity|].
      split; [symmetry; apply app_nil_r|]. split; [auto|].
      intros _. exact Hin.
    + eexists _, [_]. split; [reflexivity|].
      cbn [tweets set_tweets set_statsd]. split; [reflexivity|]. split.
      * right. eexists. split; [reflexivity|]. split; [reflexivity|exact Hin].
      * intros _. rewrite fmap_app. apply elem_of_app. right.
        cbn. constructor.
Qed.

Lemma collect_loop (items : list Item) w :
  Forall storable items ->
  NoDup (tweet_id <$> tweets w) ->
  exists w' ext,
    for_each items (collect_item settings) w = (Ok tt, w') /\
    tweets w' = (tweets w ++ ext)%list /\
    NoDup (tweet_id <$> tweets w') /\
    forall item, item ∈ items ->
      accepts settings item (allow_links_of item) ->
      item_id item ∈ tweet_id <$> tweets w'.
Proof.
  intros Hst. revert w. induction Hst as [|item items Hi _ IH]; intros w Hnd.
  - exists w, []. split; [reflexivity|]. split; [symmetry; apply app_nil_r|].
    split; [exact Hnd|]. intros item Hin. inversion Hin.
  - destruct (collect_item_step item w Hi) as (w1 & e1 & E1 & Ht1 & He1 & Ha1).
    assert (Hnd1 : NoDup (tweet_id <$> tweets w1)).
    { rewrite Ht1. destruct He1 as [->|(t & -> & Hid & Hnew)].
      - rewrite app_nil_r. exact Hnd.
      - rewrite fmap_app. apply NoDup_app. split; [exact Hnd|].
        split; [|apply NoDup_singleton].
        intros x Hx [->|[]%elem_of_nil]%elem_of_cons.
        rewrite Hid in Hx. exact (Hnew Hx). }
    destruct (IH w1 Hnd1) as (w' & e2 & E2 & Ht2 & Hnd2 & Ha2).
    exists w', (e1 ++ e2)%list.
    split; [rewrite (for_each_cons _ _ _ _ _ E1); exact E2|].
    split; [rewrite Ht2, Ht1, app_assoc; reflexivity|].
    split; [exact Hnd2|].
    intros it [->|Hin]%elem_of_cons Hacc; [|exact (Ha2 it Hin Hacc)].
    rewrite Ht2, fmap_app. apply elem_of_app. left. exact (Ha1 Hacc).
Qed.

(** A table without repeated ids has one row for a stored id. *)
Lemma stored_once (ts : list Tweet) i :
  NoDup (tweet_id <$> ts) ->
  i ∈ tweet_id <$> ts ->
  length (stored_with_id i ts) = 1%nat.
Proof.
  unfold stored_with_id. induction ts as [|t ts IH]; intros Hnd Hin.
  - inversion Hin.
  - rewrite fmap_cons in Hnd, Hin. apply NoDup_cons in Hnd as [Hne Hnd].
    destruct (decide (tweet_id t = i)) as [E|E].
    + rewrite filter_cons_True by exact E. cbn [length]. f_equal.
      rewrite filter_keeps_none; [reflexivity|].
      apply Forall_forall. intros x Hx Ex. apply Hne. rewrite E, <- Ex.
      apply list_elem_of_fmap_2, Hx.
    + rewrite filter_cons_False by exact E. apply IH; [exact Hnd|].
      apply elem_of_cons in Hin as [Hin|Hin]; [congruence|exact Hin].
Qed.

Lemma stored_kept (ts ext : list Tweet) i :
  NoDup (tweet_id <$> (ts ++ ext)%list) ->
  i ∈ tweet_id <$> ts ->
  stored_with_id i (ts ++ ext)%list = stored_with_id i ts.
Proof.
  unfold stored_with_id. intros Hnd Hin.
  rewrite fmap_app in Hnd. apply NoDup_app in Hnd as (_ & Hne & _).
  rewrite filter_app, (filter_keeps_none _ ext); [apply app_nil_r|].
  apply Forall_forall. intros x Hx Ex. apply (Hne i Hin).
  rewrite <- Ex. apply list_elem_of_fmap_2, Hx.
Qed.

Lemma page_loop (results : list Item) :
  (if (length results =? 0)%nat then mret tt
   else for_each results (collect_item settings)) =
  for_each results (collect_item settings).
Proof. destruct results; reflexivity. Qed.

End Collection.

(** C7: outside staging, on a table without repeated ids and a page of
    statuses whose creation time and metadata can be read, [collect_tweets]
    ends normally whatever ids the page repeats or the table already holds:
    the rows stored before the run are kept, the stored row of an id that
    was already in the table is left as it was, and after the run every
    accepted status of the page has exactly one stored row of its id. *)
Theorem duplicate_insert_discarded settings w :
  STAGE settings = false ->
  NoDup (tweet_id <$> tweets w) ->
  (forall opts, Forall storable (twitter w opts)) ->
  exists w' opts ext,
    collect_tweets settings w = (Ok tt, w') /\
    tweets w' = (tweets w ++ ext)%list /\
    forall item, item ∈ twitter w opts ->
      (item_id item ∈ tweet_id <$> tweets w ->
       stored_with_id (item_id item) (tweets w') =
       stored_with_id (item_id item) (tweets w)) /\
      (accepts settings item (allow_links_of item) ->
       length (stored_with_id (item_id item) (tweets w')) = 1%nat).
Proof.
  intros Hstage Hnd Hpage. unfold collect_tweets. rewrite Hstage.
  assert (Hmain : forall w0 opts, tweets w0 = tweets w -> twitter w0 = twitter w ->
    exists w' ext,
      (results ← read (fun w => twitter w opts);
       if (length results =? 0)%nat then mret tt
       else for_each results (collect_item settings)) w0 = (Ok tt, w') /\
      tweets w' = (tweets w ++ ext)%list /\
      forall item, item ∈ twitter w opts ->
        (item_id item ∈ tweet_id <$> tweets w ->
         stored_with_id (item_id item) (tweets w') =
         stored_with_id (item_id item) (tweets w)) /\
        (accepts settings item (allow_links_of item) ->
         length (stored_with_id (item_id item) (tweets w')) = 1%nat)).
  { intros w0 opts Ht Hw. unfold mbind, M_bind, read. rewrite page_loop, Hw.
    destruct (collect_loop settings (twitter w opts) w0 (Hpage opts))
      as (w' & ext & E & Ht' & Hnd' & Hacc); [rewrite Ht; exact Hnd|].
    rewrite Ht in Ht'.
    exists w', ext. split; [exact E|]. split; [exact Ht'|].
    intros item Hin. split.
    - intros Hold. rewrite Ht'. apply stored_kept; [|exact Hold].
      rewrite <- Ht'. exact Hnd'.
    - intros Ha. apply stored_once; [exact Hnd'|]. exact (Hacc item Hin Ha). }
  unfold mbind at 1, M_bind at 1, try_except, Tweet_latest.
  unfold mbind at 1, M_bind at 1.
  destruct (merge_sort newer_first (tweets w)) as [|latest ?].
  - rewrite decide_True by reflexivity.
    unfold mbind at 1, M_bind at 1, log_emit, modify, mret at 1, M_ret at 1.
    unfold mbind at 1, M_bind at 1, mret at 1, M_ret at 1.
    match goal with
    | |- context [mbind _ (read (fun w => twitter w ?o)) ?w0] =>
        destruct (Hmain w0 o eq_refl eq_refl) as (w' & ext & E & H);
        exists w', o, ext; split; [exact E|exact H]
    end.
  - unfold mret at 1, M_ret at 1.
    unfold mbind at 1, M_bind at 1, log_emit, modify.
    unfold mbind at 1, M_bind at 1, mret at 1, M_ret at 1.
    match goal with
    | |- context [mbind _ (read (fun w => twitter w ?o)) ?w0] =>
        destruct (Hmain w0 o eq_refl eq_refl) as (w' & ext & E & H);
        exists w', o, ext; split; [exact E|exact H]
    end.
Qed.

Lemma duplicate_insert_discarded_witness :
  exists w',
    collect_tweets Sample.settings
      (Sample.world Sample.table []
         [Sample.status "firefox is slow" "someone";
          Sample.status "firefox is slow" "someone"] true) = (Ok tt, w') /\
    length (stored_with_id 1001 (tweets w')) = 1%nat.
Proof.
  destruct (duplicate_insert_discarded Sample.settings
              (Sample.world Sample.table []
                 [Sample.status "firefox is slow" "someone";
                  Sample.status "firefox is slow" "someone"] true))
    as (w' & opts & ext & E & _ & H).
  - reflexivity.
  - apply (bool_decide_unpack _). vm_compute. exact I.
  - intros opts. repeat constructor; eexists; reflexivity.
  - exists w'. split; [exact E|].
    apply (H (Sample.status "firefox is slow" "someone")); [constructor|].
    intros w. rewrite filter_at_author by reflexivity. reflexivity.
Defined.

(** * Further properties *)

(** ** The filter, continued *)

Lemma filter_verdict settings item allow_links w :
  _filter_tweet settings item allow_links w =
  match verdict settings item allow_links with
  | Some reason =>
      (Ok None,
       set_statsd (incr ("customercare.tweet.rejected." ++ reason) (statsd w)) w)
  | None => (Ok (Some item), w)
  end.
Proof.
  unfold verdict, passes_reply_filter, passes_mention_filter, is_retweet,
    passes_link_filter, _filter_tweet.
  repeat match goal with
         | |- context [if ?b then _ else _] => destruct b eqn:?; cbn [negb]
         end; reflexivity.
Qed.

Lemma verdict_reason settings item allow_links reason :
  verdict settings item allow_links = Some reason ->
  reason ∈ ["reply_or_mention"; "retweet"; "link"; "user"].
Proof.
  unfold verdict.
  repeat match goal with
         | |- context [if ?b then _ else _] => destruct b
         end; intros [= <-]; set_solver.
Qed.

Lemma accepts_verdict settings item allow_links :
  accepts settings item allow_links <-> verdict settings item allow_links = None.
Proof.
  unfold accepts. split.
  - intros H. specialize (H (Sample.world [] [] [] true)).
    rewrite filter_verdict in H. destruct (verdict _ _ _); [discriminate|done].
  - intros H w. rewrite filter_verdict, H. reflexivity.
Qed.

Lemma incr_lookup name s : incr name s !! name = Some (S (default O (s !! name))).
Proof. unfold incr. apply lookup_insert_eq. Qed.

Lemma incr_lookup_ne name name' s : name <> name' -> incr name s !! name' = s !! name'.
Proof. unfold incr. intros H. apply lookup_insert_ne, H. Qed.

Lemma rejects_verdict settings item allow_links reason :
  rejects settings item allow_links reason <->
  verdict settings item allow_links = Some reason.
Proof.
  unfold rejects. split.
  - intros H. specialize (H (Sample.world [] [] [] true)).
    rewrite filter_verdict in H.
    destruct (verdict _ _ _) as [r|] eqn:E; [|discriminate].
    apply verdict_reason in E.
    apply (f_equal (fun x => statsd x.2 !! ("customercare.tweet.rejected." ++ r))) in H.
    cbn [snd statsd set_statsd Sample.world] in H. rewrite incr_lookup in H.
    destruct (decide (r = reason)) as [->|Hne]; [reflexivity|].
    rewrite incr_lookup_ne, !lookup_empty in H; [discriminate|].
    intros Heq. apply Hne. symmetry. revert Heq. apply (inj (String.app _)).
  - intros H w. rewrite filter_verdict, H. reflexivity.
Qed.

(** X2: a status in reply to a user whose id is neither zero nor the id of
    an allowed user is rejected under [reply_or_mention], whatever its text,
    its author and [allow_links]. *)
Theorem reply_to_other_rejected settings item allow_links n :
  item_to_user_id item = Some n ->
  n <> 0 ->
  n ∉ user_id <$> ALLOWED_USERS ->
  rejects settings item allow_links "reply_or_mention".
Proof.
  intros Hn H0 Hal. apply rejects_verdict. unfold verdict, passes_reply_filter.
  rewrite Hn. cbn [truthy not_allowed_id].
  assert (E0 : (n =? 0) = false) by lia.
  assert (Ea : existsb (Z.eqb n) (user_id <$> ALLOWED_USERS) = false).
  { apply not_true_is_false. intros (x & Hx & ->%Z.eqb_eq)%existsb_exists.
    apply Hal, list_elem_of_In, Hx. }
  rewrite E0, Ea. reflexivity.
Qed.

Lemma reply_to_other_rejected_witness :
  rejects Sample.settings
    {| item_id := 7; item_text := "@firefox thanks"; item_to_user_id := Some 12;
       item_screen_name := "someone"; item_created_at := None;
       item_metadata := None |} true "reply_or_mention".
Proof.
  apply (reply_to_other_rejected _ _ _ 12); [reflexivity | lia |].
  intros H. apply (bool_decide_pack _) in H. vm_compute in H. exact H.
Defined.

(** X3: [allow_links] only relaxes the filter: a status accepted without
    links allowed is accepted with links allowed, and a status rejected with
    links allowed is rejected when they are not, for the same reason or as
    a link. *)
Theorem allow_links_relaxes settings item :
  (accepts settings item false -> accepts settings item true) /\
  (forall reason,
     rejects settings item true reason ->
     rejects settings item false reason \/ rejects settings item false "link").
Proof.
  split.
  - rewrite !accepts_verdict. unfold verdict, passes_link_filter. cbn [negb andb].
    repeat match goal with
           | |- context [if ?b then _ else _] => destruct b
           end; congruence.
  - intros reason. rewrite !rejects_verdict.
    unfold verdict, passes_link_filter. cbn [negb andb].
    repeat match goal with
           | |- context [if ?b then _ else _] => destruct b
           end; auto; congruence.
Qed.

Lemma link_here (s : string) :
  Re.match_here [Re.liti "h"; Re.liti "t"; Re.liti "t"; Re.liti "p";
                 Re.Opt (fun x => Ascii.eqb (Text.lower_char x) "s"); Re.liti ":"] s =
  Text.startswith "http:" (Text.lower s) || Text.startswith "https:" (Text.lower s).
Proof.
  unfold Re.liti.
  change (Text.lower_char "h") with "h"%char.
  change (Text.lower_char "t") with "t"%char.
  change (Text.lower_char "p") with "p"%char.
  change (Text.lower_char ":") with ":"%char.
  destruct s as [|c1 [|c2 [|c3 [|c4 [|c5 [|c6 s]]]]]];
    cbn [Re.match_here Re.take Text.lower Text.startswith];
    rewrite ?(Ascii.eqb_sym (Text.lower_char _));
    repeat match goal with
           | |- context [Ascii.eqb ?a (Text.lower_char ?c)] =>
               destruct (Ascii.eqb a (Text.lower_char c)) eqn:?
           end;
    try reflexivity;
    repeat match goal with
           | H : Ascii.eqb _ _ = true |- _ => apply Ascii.eqb_eq in H
           end; congruence.
Qed.

(** X4: [LINK_REGEX] finds a match in a text exactly when the lowercased
    text contains ["http:"] or ["https:"]. *)
Theorem link_regex_substring (s : string) :
  LINK_REGEX_search s =
  Text.contains "http:" (Text.lower s) || Text.contains "https:" (Text.lower s).
Proof.
  unfold LINK_REGEX_search. induction s as [|c s IH].
  - reflexivity.
  - cbn [Re.search Text.lower Text.contains]. rewrite IH.
    rewrite (link_here (String c s)). cbn [Text.lower].
    repeat match goal with
           | |- context [Text.startswith ?p ?t] => destruct (Text.startswith p t)
           end;
      repeat match goal with
             | |- context [Text.contains ?p ?t] => destruct (Text.contains p t)
             end; reflexivity.
Qed.

Lemma starts_with_at (d : ascii) (s : string) :
  Text.startswith "@" (String d s) = Ascii.eqb "@" d.
Proof.
  change (Text.startswith "@" (String d s)) with (Ascii.eqb "@" d && true).
  apply andb_true_r.
Qed.

Lemma lower_char_at (c : ascii) :
  Ascii.eqb "@" (Text.lower_char c) = Ascii.eqb "@" c.
Proof.
  destruct c as [[] [] [] [] [] [] [] []]; reflexivity.
Qed.

Lemma contains_at_lower (s : string) :
  Text.contains "@" (Text.lower s) = Text.contains "@" s.
Proof.
  induction s as [|c s IH]; [reflexivity|].
  change (Text.lower (String c s)) with (String (Text.lower_char c) (Text.lower s)).
  change (Text.contains "@" (String c s))
    with (Text.startswith "@" (String c s) || Text.contains "@" s).
  change (Text.contains "@" (String (Text.lower_char c) (Text.lower s)))
    with (Text.startswith "@" (String (Text.lower_char c) (Text.lower s)) ||
          Text.contains "@" (Text.lower s)).
  rewrite IH, !starts_with_at, lower_char_at. reflexivity.
Qed.

Lemma at_here (s : string) :
  Re.match_here [Re.lit "@"] s = Text.startswith "@" s.
Proof.
  destruct s as [|d s]; [reflexivity|]. rewrite starts_with_at.
  change (Re.match_here [Re.lit "@"] (String d s)) with (Ascii.eqb "@" d && true).
  apply andb_true_r.
Qed.

Lemma nonword_at_here (c : ascii) (s : string) :
  Re.match_here [Re.nonword; Re.lit "@"] (String c s) =
  negb (Text.is_word c) && Text.startswith "@" s.
Proof.
  rewrite <- at_here. reflexivity.
Qed.

Lemma no_at_no_start (s : string) :
  Text.contains "@" s = false -> Text.startswith "@" s = false.
Proof.
  destruct s as [|c s]; [reflexivity|].
  change (Text.contains "@" (String c s))
    with (Text.startswith "@" (String c s) || Text.contains "@" s).
  intros [H _]%orb_false_iff. exact H.
Qed.

Lemma no_at_no_mention (s : string) :
  Text.contains "@" s = false -> MENTION_REGEX_search s = false.
Proof.
  unfold MENTION_REGEX_search. intros H.
  rewrite at_here, (no_at_no_start s H). cbn [orb].
  induction s as [|c s IH]; [reflexivity|].
  change (Text.contains "@" (String c s))
    with (Text.startswith "@" (String c s) || Text.contains "@" s) in H.
  apply orb_false_iff in H as [_ Hs].
  change (Re.search [Re.nonword; Re.lit "@"] (String c s))
    with (Re.match_here [Re.nonword; Re.lit "@"] (String c s) ||
          Re.search [Re.nonword; Re.lit "@"] s).
  rewrite (IH Hs), nonword_at_here, (no_at_no_start s Hs).
  rewrite andb_false_r. reflexivity.
Qed.

(** X5: a status whose text has no [@] passes the mention check; when it
    also passes the reply check it is not rejected under
    [reply_or_mention]. *)
Theorem no_at_passes_mention_check settings item allow_links :
  Text.contains "@" (item_text item) = false ->
  passes_mention_filter item = true /\
  (passes_reply_filter item = true ->
   ~ rejects settings item allow_links "reply_or_mention").
Proof.
  intros Hat.
  assert (Hm : passes_mention_filter item = true).
  { unfold passes_mention_filter. apply negb_true_iff.
    rewrite <- contains_at_lower in Hat.
    rewrite filtered_text_absent.
    - apply no_at_no_mention, Hat.
    - exact (contains_app_l "@" "firefox" _ Hat). }
  split; [exact Hm|]. intros Hr. rewrite rejects_verdict. unfold verdict.
  rewrite Hr, Hm. cbn [negb].
  repeat match goal with
         | |- context [if ?b then _ else _] => destruct b
         end; discriminate.
Qed.

Lemma no_at_passes_mention_check_witness :
  passes_mention_filter (Sample.status "firefox keeps crashing" "someone") = true /\
  ~ rejects Sample.settings (Sample.status "firefox keeps crashing" "someone")
      false "reply_or_mention".
Proof.
  destruct (no_at_passes_mention_check Sample.settings
              (Sample.status "firefox keeps crashing" "someone") false eq_refl)
    as [H1 H2].
  split; [exact H1|]. apply H2. reflexivity.
Defined.

(** ** Collection, continued *)

Section CollectionMore.

Variable settings : Settings.

(** One status of the page, case by case. *)
Lemma collect_item_spec item w :
  collect_item settings item w =
  let w1 := set_statsd (incr "customercare.tweet.collected" (statsd w)) w in
  match verdict settings item (allow_links_of item) with
  | Some reason =>
      (Ok tt,
       set_statsd (incr ("customercare.tweet.rejected." ++ reason) (statsd w1)) w1)
  | None =>
      match item_created_at item with
      | None => (Raise TypeError, w1)
      | Some d =>
          match item_metadata item with
          | None => (Raise (KeyError "metadata"), w1)
          | Some metadata =>
              if bool_decide (item_id item ∈ tweet_id <$> tweets w)
              then (Ok tt, w1)
              else (Ok tt,
                    set_statsd (incr "customercare.tweet.saved" (statsd w1))
                      (set_tweets
                         (tweets w ++
                          [ {| tweet_id := item_id item; raw_json := item;
                               locale := default "en" metadata;
                               created := d |} ]) w1))
          end
      end
  end.
Proof.
  unfold collect_item, mbind at 1, M_bind at 1, statsd_incr, modify.
  cbv zeta. set (w1 := set_statsd _ w).
  unfold mbind at 1, M_bind at 1. fold (allow_links_of item).
  rewrite filter_verdict.
  destruct (verdict settings item (allow_links_of item)) as [r|]; [reflexivity|].
  destruct (item_created_at item) as [d|]; [|reflexivity].
  destruct (item_metadata item) as [md|]; [|reflexivity].
  unfold mbind, M_bind, mret, M_ret, try_except, raise.
  rewrite Tweet_save_spec. cbn [tweet_id tweets set_statsd w1].
  case_bool_decide; [rewrite decide_True by reflexivity|]; reflexivity.
Qed.

(** The run outside staging is the loop over the fetched page, after one
    log record about the cursor. *)
Lemma collect_tweets_page w :
  STAGE settings = false ->
  collect_tweets settings w =
  for_each (page_of settings w) (collect_item settings)
    (set_log (cursor_record settings (tweets w) :: log w) w).
Proof.
  intros Hs. unfold collect_tweets, page_of, cursor_record, cursor.
  rewrite Hs.
  unfold mbind at 1, M_bind at 1, try_except, Tweet_latest.
  unfold mbind at 1, M_bind at 1.
  destruct (merge_sort newer_first (tweets w)) as [|latest ?]; cbn [head fmap option_fmap option_map].
  - rewrite decide_True by reflexivity.
    unfold mbind, M_bind, log_emit, modify, mret, M_ret, read.
    rewrite page_loop. reflexivity.
  - unfold mbind, M_bind, log_emit, modify, mret, M_ret, read.
    rewrite page_loop. reflexivity.
Qed.

Lemma for_each_step {A} (body : A -> M unit) x xs w :
  for_each (x :: xs) body w =
  match body x w with
  | (Ok _, w1) => for_each xs body w1
  | (Raise e, w1) => (Raise e, w1)
  end.
Proof. reflexivity. Qed.

Lemma for_each_app {A} (body : A -> M unit) (xs ys : list A) w :
  for_each (xs ++ ys)%list body w =
  match for_each xs body w with
  | (Ok _, w1) => for_each ys body w1
  | (Raise e, w1) => (Raise e, w1)
  end.
Proof.
  revert w. induction xs as [|x xs IH]; intros w; [reflexivity|].
  cbn [app]. rewrite !for_each_step.
  destruct (body x w) as [[[]|e] w1]; [apply IH|reflexivity].
Qed.

(** What one status does to the world. *)
Lemma collect_item_frame item w r w' :
  collect_item settings item w = (r, w') ->
  log w' = log w /\ replies w' = replies w /\ redis w' = redis w /\
  twitter w' = twitter w /\
  (tweets w' = tweets w \/
   exists t, tweets w' = (tweets w ++ [t])%list /\ r = Ok tt /\
             verdict settings item (allow_links_of item) = None /\
             tweet_of item = Some t /\ tweet_id t ∉ tweet_id <$> tweets w) /\
  (r = Ok tt -> verdict settings item (allow_links_of item) = None ->
   is_Some (tweet_of item) /\ item_id item ∈ tweet_id <$> tweets w').
Proof.
  rewrite collect_item_spec. cbv zeta. unfold tweet_of.
  destruct (verdict settings item (allow_links_of item)) as [reason|] eqn:Ev.
  { intros [= <- <-]. cbn. repeat split; auto; discriminate. }
  destruct (item_created_at item) as [d|].
  2:{ intros [= <- <-]. cbn. repeat split; auto; discriminate. }
  destruct (item_metadata item) as [md|].
  2:{ intros [= <- <-]. cbn. repeat split; auto; discriminate. }
  case_bool_decide as Hin; intros [= <- <-];
    cbn [tweets log replies redis twitter set_statsd set_tweets].
  - repeat split; eauto.
  - repeat split; eauto.
    + right. eexists. repeat split; eauto.
    + rewrite fmap_app. apply elem_of_app. right. cbn. constructor.
Qed.

(** What the loop over a page does to the world, whether it ends normally
    or raises on the way. *)
Lemma collect_loop_frame (items : list Item) w r w' :
  for_each items (collect_item settings) w = (r, w') ->
  log w' = log w /\ replies w' = replies w /\ redis w' = redis w /\
  twitter w' = twitter w /\
  (exists ext,
     tweets w' = (tweets w ++ ext)%list /\
     (NoDup (tweet_id <$> tweets w) -> NoDup (tweet_id <$> tweets w')) /\
     forall t, t ∈ ext ->
       (tweet_id t ∉ tweet_id <$> tweets w) /\
       exists item, item ∈ items /\
         verdict settings item (allow_links_of item) = None /\
         tweet_of item = Some t) /\
  (r = Ok tt ->
   forall item, item ∈ items ->
     verdict settings item (allow_links_of item) = None ->
     is_Some (tweet_of item) /\ item_id item ∈ tweet_id <$> tweets w').
Proof.
  revert w. induction items as [|item items IH]; intros w.
  - intros [= <- <-]. do 4 (split; [reflexivity|]). split.
    + exists []. rewrite app_nil_r. split; [reflexivity|]. split; [auto|].
      intros t Ht. inversion Ht.
    + intros _ item Hin. inversion Hin.
  - rewrite for_each_step.
    destruct (collect_item settings item w) as [r1 w1] eqn:E1.
    apply collect_item_frame in E1 as (Hl1 & Hr1 & Hd1 & Htw1 & Hrows1 & Hok1).
    assert (Hgrow1 : exists ext1, tweets w1 = (tweets w ++ ext1)%list /\
      (NoDup (tweet_id <$> tweets w) -> NoDup (tweet_id <$> tweets w1)) /\
      forall t, t ∈ ext1 ->
        (tweet_id t ∉ tweet_id <$> tweets w) /\
        verdict settings item (allow_links_of item) = None /\
        tweet_of item = Some t).
    { destruct Hrows1 as [Hsame|(t & Ht & _ & Hv & Hrow & Hnew)].
      - exists []. rewrite app_nil_r, Hsame. split; [reflexivity|].
        split; [auto|]. intros t Ht. inversion Ht.
      - exists [t]. split; [exact Ht|]. split.
        + intros Hnd. rewrite Ht, fmap_app. apply NoDup_app.
          split; [exact Hnd|]. split; [|apply NoDup_singleton].
          intros x Hx [->|[]%elem_of_nil]%elem_of_cons. exact (Hnew Hx).
        + intros t' [->|[]%elem_of_nil]%elem_of_cons. auto. }
    destruct Hgrow1 as (ext1 & Ht1 & Hnd1 & Hrows).
    destruct r1 as [[]|e].
    + intros E. apply IH in E as (Hl & Hr & Hd & Htw & (ext & Ht & Hnd & Hext) & Hok).
      split; [congruence|]. split; [congruence|]. split; [congruence|].
      split; [congruence|]. split.
      * exists (ext1 ++ ext)%list. split; [rewrite Ht, Ht1, app_assoc; reflexivity|].
        split; [auto|]. intros t [Hin|Hin]%elem_of_app.
        -- destruct (Hrows t Hin) as (? & ? & ?). split; [assumption|].
           exists item. split; [constructor|auto].
        -- destruct (Hext t Hin) as (Hnew & it & Hit & Hv & Hrow). split.
           ++ intros Hx. apply Hnew. rewrite Ht1, fmap_app. apply elem_of_app. auto.
           ++ exists it. split; [apply elem_of_cons; auto|auto].
      * intros -> it [->|Hin]%elem_of_cons Hv; [|exact (Hok eq_refl it Hin Hv)].
        destruct (Hok1 eq_refl Hv) as [Hs Hid]. split; [exact Hs|].
        rewrite Ht, fmap_app. apply elem_of_app. auto.
    + intros [= <- <-]. repeat split; auto; try discriminate.
      exists ext1. split; [exact Ht1|]. split; [exact Hnd1|].
      intros t Hin. destruct (Hrows t Hin) as (? & ? & ?). split; [assumption|].
      exists item. split; [constructor|auto].
Qed.

(** A page whose accepted statuses are all readable and stored changes
    nothing in the table. *)
Lemma collect_loop_noop (items : list Item) w :
  (forall item, item ∈ items ->
     verdict settings item (allow_links_of item) = None ->
     is_Some (tweet_of item) /\ item_id item ∈ tweet_id <$> tweets w) ->
  exists w', for_each items (collect_item settings) w = (Ok tt, w') /\
             tweets w' = tweets w.
Proof.
  revert w. induction items as [|item items IH]; intros w Hall.
  - exists w. split; reflexivity.
  - rewrite for_each_step, collect_item_spec. cbv zeta.
    assert (Hrest : forall w1, tweets w1 = tweets w ->
      exists w', for_each items (collect_item settings) w1 = (Ok tt, w') /\
                 tweets w' = tweets w).
    { intros w1 E1. destruct (IH w1) as (w' & E & Ht).
      - intros it Hin Hv. rewrite E1. apply Hall; [apply elem_of_cons; auto|exact Hv].
      - exists w'. split; [exact E|congruence]. }
    destruct (verdict settings item (allow_links_of item)) as [reason|] eqn:Ev.
    { apply Hrest. reflexivity. }
    destruct (Hall item) as [[t Ht] Hid]; [constructor|exact Ev|].
    unfold tweet_of in Ht.
    destruct (item_created_at item) as [d|]; [|discriminate].
    destruct (item_metadata item) as [md|]; [|discriminate].
    rewrite bool_decide_eq_true_2 by exact Hid. apply Hrest. reflexivity.
Qed.

(** A page whose accepted statuses are all readable is processed to its
    end. *)
Lemma collect_loop_ok (items : list Item) w :
  (forall item, item ∈ items ->
     verdict settings item (allow_links_of item) = None ->
     is_Some (tweet_of item)) ->
  exists w', for_each items (collect_item settings) w = (Ok tt, w').
Proof.
  revert w. induction items as [|item items IH]; intros w Hall.
  - exists w. reflexivity.
  - rewrite for_each_step, collect_item_spec. cbv zeta.
    assert (Hrest : forall w1,
      exists w', for_each items (collect_item settings) w1 = (Ok tt, w')).
    { intros w1. apply IH. intros it Hin. apply Hall, elem_of_cons. auto. }
    destruct (verdict settings item (allow_links_of item)) as [reason|] eqn:Ev.
    { apply Hrest. }
    destruct (Hall item) as [t Ht]; [constructor|exact Ev|].
    unfold tweet_of in Ht.
    destruct (item_created_at item) as [d|]; [|discriminate].
    destruct (item_metadata item) as [md|]; [|discriminate].
    case_bool_decide; apply Hrest.
Qed.

End CollectionMore.

(** X6: a status that the filter rejects is skipped whatever else it
    carries: the step ends normally, also when the creation time or the
    metadata cannot be read, and its effects are the increments of
    [customercare.tweet.collected] and of the rejection counter. *)
Theorem rejected_status_skipped settings item reason w :
  rejects settings item (allow_links_of item) reason ->
  collect_item settings item w =
  (Ok tt,
   set_statsd
     (incr ("customercare.tweet.rejected." ++ reason)
        (incr "customercare.tweet.collected" (statsd w))) w).
Proof.
  intros Hr%rejects_verdict. rewrite collect_item_spec, Hr. reflexivity.
Qed.

Lemma rejected_status_skipped_witness :
  tweet_of {| item_id := 5; item_text := "see http://t.co/x";
              item_to_user_id := None; item_screen_name := "someone";
              item_created_at := None; item_metadata := None |} = None /\
  tweets (collect_item Sample.settings
            {| item_id := 5; item_text := "see http://t.co/x";
               item_to_user_id := None; item_screen_name := "someone";
               item_created_at := None; item_metadata := None |}
            (Sample.world Sample.table [] [] true)).2 = Sample.table.
Proof.
  split; [reflexivity|].
  rewrite (rejected_status_skipped Sample.settings _ "link").
  - reflexivity.
  - apply rejects_verdict. reflexivity.
Defined.

(** X7: the loop has no isolation of a status: when an accepted status of
    the page has no readable creation time or no metadata, the run raises
    ([TypeError] for the time, else [KeyError] for the metadata); the rows
    of the statuses before it stay stored and no status after it is
    processed. *)
Theorem unreadable_status_aborts settings w (items1 items2 : list Item) (bad : Item) :
  STAGE settings = false ->
  page_of settings w = (items1 ++ bad :: items2)%list ->
  (forall item, item ∈ items1 ->
     accepts settings item (allow_links_of item) -> is_Some (tweet_of item)) ->
  accepts settings bad (allow_links_of bad) ->
  tweet_of bad = None ->
  exists w' ext,
    collect_tweets settings w =
      (Raise (match item_created_at bad with
              | Some _ => KeyError "metadata"
              | None => TypeError
              end), w') /\
    tweets w' = (tweets w ++ ext)%list /\
    (forall t, t ∈ ext -> exists item, item ∈ items1 /\ tweet_of item = Some t) /\
    (forall item, item ∈ items1 ->
       accepts settings item (allow_links_of item) ->
       item_id item ∈ tweet_id <$> tweets w').
Proof.
  intros Hs Hpage Hall Hbad Hnone.
  rewrite collect_tweets_page by exact Hs. rewrite Hpage, for_each_app.
  set (w0 := set_log _ w).
  destruct (collect_loop_ok settings items1 w0) as [w1 E1].
  { intros item Hin Hv. apply Hall; [exact Hin|]. apply accepts_verdict, Hv. }
  rewrite E1.
  apply collect_loop_frame in E1 as (_ & _ & _ & _ & (ext & Ht & _ & Hext) & Hok).
  rewrite for_each_step, collect_item_spec. cbv zeta.
  apply accepts_verdict in Hbad. rewrite Hbad.
  unfold tweet_of in Hnone.
  assert (Hrest : forall w2, tweets w2 = tweets w1 ->
    (forall t, t ∈ ext -> exists item, item ∈ items1 /\ tweet_of item = Some t) /\
    (forall item, item ∈ items1 ->
       accepts settings item (allow_links_of item) ->
       item_id item ∈ tweet_id <$> tweets w2)).
  { intros w2 E2. split.
    - intros t Hin. destruct (Hext t Hin) as (_ & it & ? & _ & ?). eauto.
    - intros it Hin Ha%accepts_verdict. rewrite E2.
      exact (proj2 (Hok eq_refl it Hin Ha)). }
  destruct (item_created_at bad) as [d|].
  - destruct (item_metadata bad) as [md|]; [discriminate|].
    eexists _, ext. split; [reflexivity|]. split; [exact Ht|].
    apply Hrest. reflexivity.
  - eexists _, ext. split; [reflexivity|]. split; [exact Ht|].
    apply Hrest. reflexivity.
Qed.

Lemma unreadable_status_aborts_witness :
  exists w',
    collect_tweets Sample.settings
      (Sample.world [] []
         [ Sample.status "firefox is slow" "someone";
           {| item_id := 1002; item_text := "firefox is fast";
              item_to_user_id := None; item_screen_name := "someone";
              item_created_at := None; item_metadata := None |};
           Sample.status "firefox again" "someone" ] true) =
      (Raise TypeError, w') /\
    tweet_id <$> tweets w' = [1001].
Proof.
  destruct (unreadable_status_aborts Sample.settings
    (Sample.world [] []
       [ Sample.status "firefox is slow" "someone";
         {| item_id := 1002; item_text := "firefox is fast";
            item_to_user_id := None; item_screen_name := "someone";
            item_created_at := None; item_metadata := None |};
         Sample.status "firefox again" "someone" ] true)
    [Sample.status "firefox is slow" "someone"]
    [Sample.status "firefox again" "someone"]
    {| item_id := 1002; item_text := "firefox is fast";
       item_to_user_id := None; item_screen_name := "someone";
       item_created_at := None; item_metadata := None |})
    as (w' & ext & E & _).
  - reflexivity.
  - reflexivity.
  - intros item [->|[]%elem_of_nil]%elem_of_cons _. eexists. reflexivity.
  - apply accepts_verdict. reflexivity.
  - reflexivity.
  - exists w'. split; [exact E|].
    apply (f_equal snd) in E. cbn [snd] in E. subst w'. vm_compute. reflexivity.
Defined.

(** X8: whether the run ends normally or raises, the table only grows, and
    every new row is the row of a status of the page that the filter
    accepts, under an id that the table did not hold; ids stay without
    repetition, and the replies, the cache and the earlier log are
    untouched. *)
Theorem stored_rows_are_accepted_statuses settings w r w' :
  STAGE settings = false ->
  collect_tweets settings w = (r, w') ->
  replies w' = replies w /\ redis w' = redis w /\
  exists ext,
    tweets w' = (tweets w ++ ext)%list /\
    (NoDup (tweet_id <$> tweets w) -> NoDup (tweet_id <$> tweets w')) /\
    forall t, t ∈ ext ->
      (tweet_id t ∉ tweet_id <$> tweets w) /\
      exists item, item ∈ page_of settings w /\
        accepts settings item (allow_links_of item) /\
        tweet_of item = Some t.
Proof.
  intros Hs. rewrite collect_tweets_page by exact Hs.
  intros E. apply collect_loop_frame in E
    as (_ & Hr & Hd & _ & (ext & Ht & Hnd & Hext) & _).
  split; [exact Hr|]. split; [exact Hd|]. exists ext.
  split; [exact Ht|]. split; [exact Hnd|].
  intros t Hin. destruct (Hext t Hin) as (Hnew & it & Hit & Hv & Hrow).
  split; [exact Hnew|]. exists it. split; [exact Hit|].
  split; [apply accepts_verdict, Hv|exact Hrow].
Qed.

Lemma stored_rows_are_accepted_statuses_witness :
  exists ext,
    tweets (collect_tweets Sample.settings
              (Sample.world Sample.table []
                 [ Sample.status "see http://t.co/x" "someone";
                   Sample.status "firefox is slow" "someone" ] true)).2 =
      (Sample.table ++ ext)%list /\
    raw_json <$> ext = [Sample.status "firefox is slow" "someone"].
Proof.
  destruct (stored_rows_are_accepted_statuses Sample.settings
    (Sample.world Sample.table []
       [ Sample.status "see http://t.co/x" "someone";
         Sample.status "firefox is slow" "someone" ] true)
    (collect_tweets Sample.settings
       (Sample.world Sample.table []
          [ Sample.status "see http://t.co/x" "someone";
            Sample.status "firefox is slow" "someone" ] true)).1
    (collect_tweets Sample.settings
       (Sample.world Sample.table []
          [ Sample.status "see http://t.co/x" "someone";
            Sample.status "firefox is slow" "someone" ] true)).2)
    as (_ & _ & ext & Ht & _).
  - reflexivity.
  - apply surjective_pairing.
  - exists ext. split; [exact Ht|].
    apply (f_equal (drop (length Sample.table))) in Ht.
    rewrite drop_app_length in Ht. rewrite <- Ht. vm_compute. reflexivity.
Defined.

(** X9: a second run on the same page adds nothing: after a run that ended
    normally, a run that fetches the same page ends normally and leaves the
    table as it is. *)
Theorem collect_twice_same_table settings w w1 :
  STAGE settings = false ->
  collect_tweets settings w = (Ok tt, w1) ->
  page_of settings w1 = page_of settings w ->
  exists w2, collect_tweets settings w1 = (Ok tt, w2) /\ tweets w2 = tweets w1.
Proof.
  intros Hs E Hpage. rewrite collect_tweets_page in E by exact Hs.
  apply collect_loop_frame in E as (_ & _ & _ & _ & _ & Hok).
  rewrite collect_tweets_page by exact Hs. rewrite Hpage.
  destruct (collect_loop_noop settings (page_of settings w)
              (set_log (cursor_record settings (tweets w1) :: log w1) w1))
    as (w2 & E2 & Ht2).
  - intros item Hin Hv. exact (Hok eq_refl item Hin Hv).
  - exists w2. split; [exact E2|exact Ht2].
Qed.

Lemma collect_twice_same_table_witness :
  exists w1 w2,
    collect_tweets Sample.settings
      (Sample.world Sample.table []
         [Sample.status "firefox is slow" "someone"] true) = (Ok tt, w1) /\
    collect_tweets Sample.settings w1 = (Ok tt, w2) /\
    tweets w2 = tweets w1 /\ length (tweets w1) = 9%nat.
Proof.
  pose (w := Sample.world Sample.table []
               [Sample.status "firefox is slow" "someone"] true).
  assert (E : collect_tweets Sample.settings w =
              (Ok tt, (collect_tweets Sample.settings w).2)).
  { rewrite (surjective_pairing (collect_tweets Sample.settings w)) at 1.
    f_equal; vm_compute; reflexivity. }
  destruct (collect_twice_same_table Sample.settings w _ eq_refl E eq_refl)
    as (w2 & E2 & Ht).
  exists (collect_tweets Sample.settings w).2, w2.
  split; [exact E|]. split; [exact E2|]. split; [exact Ht|].
  vm_compute. reflexivity.
Defined.


Lemma incr_same name s : default O (incr name s !! name) = S (default O (s !! name)).
Proof. rewrite incr_lookup. reflexivity. Qed.

Lemma incr_other name name' s :
  name <> name' -> default O (incr name s !! name') = default O (s !! name').
Proof. intros H. rewrite incr_lookup_ne by exact H. reflexivity. Qed.

Lemma collect_loop_counters settings (items : list Item) w w' :
  for_each items (collect_item settings) w = (Ok tt, w') ->
  default O (statsd w' !! "customercare.tweet.collected") =
    (default O (statsd w !! "customercare.tweet.collected") + length items)%nat /\
  (default O (statsd w' !! "customercare.tweet.saved") + length (tweets w))%nat =
    (default O (statsd w !! "customercare.tweet.saved") + length (tweets w'))%nat.
Proof.
  revert w. induction items as [|item items IH]; intros w.
  - intros [= <-]. cbn [length]. lia.
  - rewrite for_each_step, collect_item_spec. cbv zeta.
    assert (Hrest : forall w1,
      default O (statsd w1 !! "customercare.tweet.collected") =
        S (default O (statsd w !! "customercare.tweet.collected")) ->
      (default O (statsd w1 !! "customercare.tweet.saved") + length (tweets w))%nat =
        (default O (statsd w !! "customercare.tweet.saved") + length (tweets w1))%nat ->
      for_each items (collect_item settings) w1 = (Ok tt, w') ->
      default O (statsd w' !! "customercare.tweet.collected") =
        (default O (statsd w !! "customercare.tweet.collected") + length (item :: items))%nat /\
      (default O (statsd w' !! "customercare.tweet.saved") + length (tweets w))%nat =
        (default O (statsd w !! "customercare.tweet.saved") + length (tweets w'))%nat).
    { intros w1 Hc Hsv E. apply IH in E as [E1 E2]. cbn [length]. lia. }
    destruct (verdict settings item (allow_links_of item)) as [reason|] eqn:Ev.
    { apply Hrest; cbn [statsd tweets set_statsd];
        apply verdict_reason in Ev;
        repeat (apply elem_of_cons in Ev as [->|Ev]); try (inversion Ev; fail);
        rewrite ?incr_other by discriminate; rewrite ?incr_same; lia. }
    destruct (item_created_at item) as [d|]; [|discriminate].
    destruct (item_metadata item) as [md|]; [|discriminate].
    case_bool_decide.
    + apply Hrest; cbn [statsd tweets set_statsd];
        rewrite ?incr_other by discriminate; rewrite ?incr_same; lia.
    + apply Hrest; cbn [statsd tweets set_statsd set_tweets];
        rewrite ?incr_same; rewrite ?incr_other by discriminate;
        rewrite ?incr_same; rewrite ?length_app; cbn [length]; lia.
Qed.

(** X10: after a run that ended normally, [customercare.tweet.collected] has
    grown by the number of statuses of the page and
    [customercare.tweet.saved] by the number of rows added to the table. *)
Theorem collect_counters settings w w' :
  STAGE settings = false ->
  collect_tweets settings w = (Ok tt, w') ->
  default O (statsd w' !! "customercare.tweet.collected") =
    (default O (statsd w !! "customercare.tweet.collected") +
     length (page_of settings w))%nat /\
  (default O (statsd w' !! "customercare.tweet.saved") + length (tweets w))%nat =
    (default O (statsd w !! "customercare.tweet.saved") + length (tweets w'))%nat.
Proof.
  intros Hs. rewrite collect_tweets_page by exact Hs.
  intros E. apply collect_loop_counters in E. exact E.
Qed.

Lemma collect_counters_witness :
  collect_tweets Sample.settings Cases.mixed_page =
    (Ok tt, (collect_tweets Sample.settings Cases.mixed_page).2) /\
  default O (statsd (collect_tweets Sample.settings Cases.mixed_page).2
             !! "customercare.tweet.collected") =
    (default O (statsd Cases.mixed_page !! "customercare.tweet.collected") +
     length (page_of Sample.settings Cases.mixed_page))%nat /\
  (default O (statsd (collect_tweets Sample.settings Cases.mixed_page).2
              !! "customercare.tweet.saved") +
   length (tweets Cases.mixed_page))%nat =
    (default O (statsd Cases.mixed_page !! "customercare.tweet.saved") +
     length (tweets (collect_tweets Sample.settings Cases.mixed_page).2))%nat.
Proof.
  assert (E : collect_tweets Sample.settings Cases.mixed_page =
              (Ok tt, (collect_tweets Sample.settings Cases.mixed_page).2)).
  { rewrite (surjective_pairing (collect_tweets Sample.settings Cases.mixed_page)) at 1.
    f_equal; vm_compute; reflexivity. }
  split; [exact E|].
  exact (collect_counters Sample.settings Cases.mixed_page _ eq_refl E).
Defined.

(** ** Retention, continued *)

(** The rows created after the row of rank [n] are at most [n]. *)
Lemma cut_length_le (l : list Tweet) (n : nat) (o : Tweet) :
  merge_sort newer_first l !! n = Some o ->
  (length (filter (fun t => (created o < created t)%Z) l) <= n)%nat.
Proof.
  intros Hn.
  assert (Hp : filter (fun t => created o < created t) l ≡ₚ
               filter (fun t => created o < created t) (merge_sort newer_first l))
    by (apply filter_Permutation; symmetry; apply merge_sort_Permutation).
  rewrite Hp.
  pose proof (StronglySorted_merge_sort newer_first l) as Hs.
  revert Hs. rewrite <- (take_drop_middle _ _ _ Hn).
  intros (_ & _ & H2)%StronglySorted_app.
  apply StronglySorted_cons in H2 as [H2 _].
  rewrite filter_app, (filter_keeps_none _ (o :: _)).
  - rewrite app_nil_r. etransitivity; [apply length_filter|].
    rewrite length_take. lia.
  - constructor; [lia|].
    eapply Forall_impl; [exact H2|]. unfold newer_first. intros x; simpl. lia.
Qed.

Section RetentionMore.

Variable settings : Settings.

(** The world after one language. *)
Lemma purge_locale_frame lang w :
  exists w', purge_locale settings lang w = (Ok tt, w') /\
    tweets w' `sublist_of` tweets w /\
    replies w' = replies w /\ redis w' = redis w /\ statsd w' = statsd w.
Proof.
  rewrite purge_locale_spec.
  destruct (iso639_1 (LOCALES settings lang)) as [l|];
    [|exists w; repeat split; reflexivity].
  case_bool_decide; [exists w; repeat split; reflexivity|].
  destruct (merge_sort newer_first (of_locale l (tweets w)) !! CC_MAX_TWEETS settings);
    [|exists w; repeat split; reflexivity].
  eexists. split; [reflexivity|]. cbn [tweets replies redis statsd set_tweets set_log].
  split; [apply sublist_filter|]. repeat split.
Qed.

Lemma purge_frame langs w :
  exists w', for_each langs (purge_locale settings) w = (Ok tt, w') /\
    tweets w' `sublist_of` tweets w /\
    replies w' = replies w /\ redis w' = redis w /\ statsd w' = statsd w.
Proof.
  revert w. induction langs as [|lang langs IH]; intros w.
  - exists w. repeat split; reflexivity.
  - destruct (purge_locale_frame lang w) as (w1 & E1 & Hs1 & Hr1 & Hd1 & Hc1).
    destruct (IH w1) as (w' & E & Hs & Hr & Hd & Hc).
    exists w'. rewrite (for_each_cons _ _ _ _ _ E1). split; [exact E|].
    split; [etransitivity; eassumption|]. repeat split; congruence.
Qed.

(** A locale that no language maps to, and the empty code, keep their
    rows. *)
Lemma purge_untouched loc langs w w' :
  (loc = "" \/ forall lang, lang ∈ langs -> iso639_1 (LOCALES settings lang) <> Some loc) ->
  for_each langs (purge_locale settings) w = (Ok tt, w') ->
  of_locale loc (tweets w') = of_locale loc (tweets w).
Proof.
  intros Hun. revert w. induction langs as [|lang langs IH]; intros w.
  - intros [= <-]. reflexivity.
  - destruct (purge_step settings loc lang w) as (w1 & E1 & [Hu|(Hy & Hne & _)]).
    + rewrite (for_each_cons _ _ _ _ _ E1). intros E.
      rewrite <- Hu. apply IH; [|exact E].
      destruct Hun as [?|Hun]; [auto|]. right. intros l Hl. apply Hun.
      apply elem_of_cons. auto.
    + exfalso. destruct Hun as [?|Hun]; [done|].
      apply (Hun lang); [constructor|exact Hy].
Qed.

(** The rows of a locale never grow back. *)
Lemma purge_shrinks loc langs w w' :
  for_each langs (purge_locale settings) w = (Ok tt, w') ->
  (length (of_locale loc (tweets w')) <= length (of_locale loc (tweets w)))%nat.
Proof.
  revert w. induction langs as [|lang langs IH]; intros w.
  - intros [= <-]. reflexivity.
  - destruct (purge_step settings loc lang w) as (w1 & E1 & Hstep).
    rewrite (for_each_cons _ _ _ _ _ E1). intros E%IH.
    etransitivity; [exact E|].
    destruct Hstep as [->|(_ & _ & o & _ & ->)]; [reflexivity|].
    apply length_filter.
Qed.

(** A mapped locale with more than [CC_MAX_TWEETS] rows is cut after the row
    of that rank, whatever the creation times. *)
Lemma purge_cut loc langs w :
  loc <> "" ->
  (CC_MAX_TWEETS settings < length (of_locale loc (tweets w)))%nat ->
  (exists lang, lang ∈ langs /\ iso639_1 (LOCALES settings lang) = Some loc) ->
  exists w' o, for_each langs (purge_locale settings) w = (Ok tt, w') /\
    merge_sort newer_first (of_locale loc (tweets w)) !! CC_MAX_TWEETS settings = Some o /\
    of_locale loc (tweets w') =
    filter (fun t => created o < created t) (of_locale loc (tweets w)).
Proof.
  intros Hloc. revert w.
  induction langs as [|lang langs IH]; intros w Hlt (l & Hl & Hm).
  - inversion Hl.
  - destruct (decide (iso639_1 (LOCALES settings lang) = Some loc)) as [Hy|Hn].
    + destruct (lookup_lt_is_Some_2
                  (merge_sort newer_first (of_locale loc (tweets w)))
                  (CC_MAX_TWEETS settings))
        as [o Ho]; [rewrite sorted_length; exact Hlt|].
      pose proof (purge_locale_spec settings lang w) as E.
      rewrite Hy, bool_decide_eq_false_2, Ho in E by exact Hloc.
      rewrite (for_each_cons _ _ _ _ _ E).
      match type of E with _ = (_, ?w1) => set (w1' := w1) in * end.
      assert (Hc : of_locale loc (tweets w1') =
                   filter (fun t => created o < created t) (of_locale loc (tweets w)))
        by apply of_locale_delete_same.
      destruct (purge_small settings loc langs w1') as (w' & E' & Hu').
      { rewrite Hc. apply cut_length_le, Ho. }
      exists w', o. split; [exact E'|]. split; [exact Ho|].
      rewrite Hu'. exact Hc.
    + destruct (purge_step settings loc lang w) as (w1 & E & [Hu|(Hy & _)]); [|done].
      rewrite (for_each_cons _ _ _ _ _ E).
      destruct (IH w1) as (w' & o & E' & Ho & Hc).
      * rewrite Hu. exact Hlt.
      * exists l. split; [|exact Hm].
        apply elem_of_cons in Hl as [->|Hl]; [done|exact Hl].
      * exists w', o. rewrite Hu in Ho, Hc. auto.
Qed.

(** A table in which no mapped locale exceeds [CC_MAX_TWEETS] is left as it
    is, log included. *)
Lemma purge_fixed langs w :
  (forall lang loc, lang ∈ langs ->
     iso639_1 (LOCALES settings lang) = Some loc -> loc <> "" ->
     (length (of_locale loc (tweets w)) <= CC_MAX_TWEETS settings)%nat) ->
  for_each langs (purge_locale settings) w = (Ok tt, w).
Proof.
  induction langs as [|lang langs IH]; intros Hall; [reflexivity|].
  assert (E : purge_locale settings lang w = (Ok tt, w)).
  { rewrite purge_locale_spec.
    destruct (iso639_1 (LOCALES settings lang)) as [l|] eqn:El; [|reflexivity].
    case_bool_decide as Hl; [reflexivity|].
    rewrite (lookup_ge_None_2 (merge_sort newer_first (of_locale l (tweets w)))); [reflexivity|].
    rewrite sorted_length. apply (Hall lang l); [constructor|exact El|exact Hl]. }
  rewrite (for_each_cons _ _ _ _ _ E). apply IH.
  intros l loc Hin. apply Hall, elem_of_cons. auto.
Qed.

End RetentionMore.

(** A locale that a language of the loop maps to is within the limit after
    the loop. *)
Lemma purge_within settings loc langs w :
  loc <> "" ->
  (exists lang, lang ∈ langs /\ iso639_1 (LOCALES settings lang) = Some loc) ->
  exists w', for_each langs (purge_locale settings) w = (Ok tt, w') /\
    (length (of_locale loc (tweets w')) <= CC_MAX_TWEETS settings)%nat.
Proof.
  intros Hloc Hmap.
  destruct (Nat.lt_ge_cases (CC_MAX_TWEETS settings)
              (length (of_locale loc (tweets w)))) as [Hlt|Hle].
  - destruct (purge_cut settings loc _ w Hloc Hlt Hmap) as (w' & o & E & Ho & Hc).
    exists w'. split; [exact E|]. rewrite Hc. apply cut_length_le, Ho.
  - destruct (purge_small settings loc langs w Hle) as (w' & E & Hu).
    exists w'. split; [exact E|]. rewrite Hu. exact Hle.
Qed.

(** X11: after a run, a locale that a language maps to holds at most
    [CC_MAX_TWEETS] posts, with or without equal creation times. *)
Theorem purge_bounds_locale settings loc w :
  loc <> "" ->
  mapped settings loc ->
  exists w', purge_tweets settings w = (Ok tt, w') /\
    (length (of_locale loc (tweets w')) <= CC_MAX_TWEETS settings)%nat.
Proof.
  intros Hloc Hmap. unfold purge_tweets, mapped in *.
  destruct (purge_within settings loc (SUMO_LANGUAGES settings) w Hloc Hmap)
    as (w' & E & Hle).
  exists w'. split; [exact E|exact Hle].
Qed.

Lemma purge_bounds_locale_witness :
  exists w', purge_tweets Sample.settings (Sample.world Cases.same_time [] [] true)
             = (Ok tt, w') /\
    (length (of_locale "en" (tweets w')) <= 2)%nat.
Proof.
  apply (purge_bounds_locale Sample.settings "en").
  - discriminate.
  - exists "en-US". split; [constructor|reflexivity].
Defined.

(** X12: a second run deletes nothing: the world after a run is a fixed
    point of the run, log included. *)
Theorem purge_twice settings w w1 :
  purge_tweets settings w = (Ok tt, w1) ->
  purge_tweets settings w1 = (Ok tt, w1).
Proof.
  intros E. unfold purge_tweets. apply purge_fixed.
  intros lang loc Hin Hiso Hloc.
  destruct (purge_within settings loc (SUMO_LANGUAGES settings) w Hloc)
    as (w' & E' & Hle).
  { exists lang. auto. }
  unfold purge_tweets in E. rewrite E in E'. injection E' as <-. exact Hle.
Qed.

Lemma purge_twice_witness :
  purge_tweets Sample.settings
    (purge_tweets Sample.settings (Sample.world Sample.table [] [] true)).2 =
  (Ok tt, (purge_tweets Sample.settings (Sample.world Sample.table [] [] true)).2).
Proof.
  apply (purge_twice Sample.settings (Sample.world Sample.table [] [] true)).
  rewrite (surjective_pairing (purge_tweets Sample.settings _)) at 1.
  f_equal; vm_compute; reflexivity.
Defined.

(** X13: a run never raises and only deletes: the table after it is a
    sublist of the table before it, the replies, the cache and the counters
    are untouched, and the posts of the empty locale and of a locale that
    no language maps to are all kept. *)
Theorem purge_only_deletes settings w :
  exists w', purge_tweets settings w = (Ok tt, w') /\
    tweets w' `sublist_of` tweets w /\
    replies w' = replies w /\ redis w' = redis w /\ statsd w' = statsd w /\
    forall loc, loc = "" \/ ~ mapped settings loc ->
      of_locale loc (tweets w') = of_locale loc (tweets w).
Proof.
  destruct (purge_frame settings (SUMO_LANGUAGES settings) w)
    as (w' & E & Hs & Hr & Hd & Hc).
  exists w'. split; [exact E|]. do 4 (split; [assumption|]).
  intros loc Hun. apply (purge_untouched settings loc _ _ _) with (2 := E).
  destruct Hun as [?|Hun]; [auto|]. right. intros lang Hin Hiso.
  apply Hun. exists lang. auto.
Qed.

(** X14: within a locale the run deletes from the old end: every post that
    remains was created after every post of the locale that was deleted. *)
Theorem purge_deletes_oldest settings loc w w' kept gone :
  purge_tweets settings w = (Ok tt, w') ->
  kept ∈ of_locale loc (tweets w') ->
  gone ∈ of_locale loc (tweets w) ->
  gone ∉ tweets w' ->
  created gone < created kept.
Proof.
  intros E Hk Hg Hd.
  assert (Hcases : of_locale loc (tweets w') = of_locale loc (tweets w) \/
    exists o, of_locale loc (tweets w') =
              filter (fun t => created o < created t) (of_locale loc (tweets w))).
  { destruct (decide (loc = "")) as [Hl|Hl].
    { left. eapply purge_untouched; [left; exact Hl|exact E]. }
    destruct (Nat.lt_ge_cases (CC_MAX_TWEETS settings)
                (length (of_locale loc (tweets w)))) as [Hlt|Hle].
    - destruct (decide (Exists (fun lang => iso639_1 (LOCALES settings lang) = Some loc)
                          (SUMO_LANGUAGES settings))) as [Hex|Hno].
      + apply Exists_exists in Hex.
        destruct (purge_cut settings loc _ w Hl Hlt Hex) as (w2 & o & E2 & _ & Hc).
        unfold purge_tweets in E. rewrite E in E2. injection E2 as <-. eauto.
      + left. eapply purge_untouched; [|exact E]. right.
        intros lang Hin Hiso. apply Hno, Exists_exists. eauto.
    - destruct (purge_small settings loc (SUMO_LANGUAGES settings) w Hle)
        as (w2 & E2 & Hu).
      unfold purge_tweets in E. rewrite E in E2. injection E2 as <-. auto. }
  destruct Hcases as [Hu|[o Hc]].
  - exfalso. apply Hd. rewrite <- Hu in Hg.
    apply list_elem_of_filter in Hg as [_ Hg]. exact Hg.
  - rewrite Hc in Hk. apply list_elem_of_filter in Hk as [Hk _].
    destruct (decide (created o < created gone)) as [Hlt|Hge]; [|lia].
    exfalso. apply Hd.
    assert (Hin : gone ∈ of_locale loc (tweets w'))
      by (rewrite Hc; apply list_elem_of_filter; auto).
    apply list_elem_of_filter in Hin as [_ Hin]. exact Hin.
Qed.

Lemma purge_deletes_oldest_witness :
  created (Sample.tweet 1 "en" 10) < created (Sample.tweet 2 "en" 30).
Proof.
  apply (purge_deletes_oldest Sample.settings "en"
           (Sample.world Sample.table [] [] true)
           (purge_tweets Sample.settings (Sample.world Sample.table [] [] true)).2).
  - rewrite (surjective_pairing (purge_tweets Sample.settings _)) at 1.
    f_equal; vm_compute; reflexivity.
  - apply (bool_decide_unpack _). vm_compute. exact I.
  - apply (bool_decide_unpack _). vm_compute. exact I.
  - intros H. apply (bool_decide_pack _) in H. vm_compute in H. exact H.
Defined.

(** X15: equal creation times cost a locale all its posts: when a mapped
    locale holds more than [CC_MAX_TWEETS] posts and all of them have the
    same creation time, none is left after the run. *)
Theorem purge_equal_times_deletes_all settings loc w c :
  loc <> "" ->
  mapped settings loc ->
  (CC_MAX_TWEETS settings < length (of_locale loc (tweets w)))%nat ->
  (forall t, t ∈ of_locale loc (tweets w) -> created t = c) ->
  exists w', purge_tweets settings w = (Ok tt, w') /\
             of_locale loc (tweets w') = [].
Proof.
  intros Hloc Hmap Hlt Hsame.
  destruct (purge_cut settings loc _ w Hloc Hlt Hmap) as (w' & o & E & Ho & Hc).
  exists w'. split; [exact E|]. rewrite Hc. apply filter_keeps_none.
  apply Forall_forall. intros t Ht.
  assert (Hin : o ∈ of_locale loc (tweets w)).
  { rewrite <- (merge_sort_Permutation newer_first).
    eapply list_elem_of_lookup_2, Ho. }
  rewrite (Hsame t Ht), (Hsame o Hin). lia.
Qed.

Lemma purge_equal_times_deletes_all_witness :
  exists w', purge_tweets Sample.settings (Sample.world Cases.same_time [] [] true)
             = (Ok tt, w') /\
             of_locale "en" (tweets w') = [].
Proof.
  apply (purge_equal_times_deletes_all Sample.settings "en" _ 10).
  - discriminate.
  - exists "en-US". split; [constructor|reflexivity].
  - vm_compute. lia.
  - intros t Ht. apply (bool_decide_unpack _).
    change (of_locale "en" (tweets (Sample.world Cases.same_time [] [] true)))
      with [Sample.tweet 1 "en" 10; Sample.tweet 2 "en" 10;
            Sample.tweet 3 "en" 10; Sample.tweet 4 "en" 10] in Ht.
    repeat (apply elem_of_cons in Ht as [->|Ht]; [vm_compute; exact I|]).
    inversion Ht.
Defined.

(** X16: [_get_oldest_tweet] never raises and leaves the world as it is; it
    returns [None] exactly when the locale has at most [n] posts, and
    otherwise a post of the locale of rank [n] from the newest: at most [n]
    posts of the locale are newer and more than [n] are at least as new. *)
Theorem get_oldest_tweet_rank loc n w :
  exists r, _get_oldest_tweet loc n w = (Ok r, w) /\
    (r = None <-> (length (of_locale loc (tweets w)) <= n)%nat) /\
    forall t, r = Some t ->
      t ∈ tweets w /\ locale t = loc /\
      (length (filter (fun x => (created t < created x)%Z)
                 (of_locale loc (tweets w))) <= n)%nat /\
      (n < length (filter (fun x => (created t <= created x)%Z)
                 (of_locale loc (tweets w))))%nat.
Proof.
  rewrite get_oldest_spec. eexists. split; [reflexivity|]. split.
  - rewrite lookup_ge_None, sorted_length. reflexivity.
  - intros t Ht.
    assert (Hin : t ∈ of_locale loc (tweets w)).
    { rewrite <- (merge_sort_Permutation newer_first).
      eapply list_elem_of_lookup_2, Ht. }
    apply list_elem_of_filter in Hin as [Hl Hin].
    split; [exact Hin|]. split; [exact Hl|]. split; [apply cut_length_le, Ht|].
    set (l := of_locale loc (tweets w)) in *.
    assert (Hp : filter (fun x => created t <= created x) l ≡ₚ
                 filter (fun x => created t <= created x) (merge_sort newer_first l))
      by (apply filter_Permutation; symmetry; apply merge_sort_Permutation).
    rewrite Hp.
    pose proof (StronglySorted_merge_sort newer_first l) as Hs.
    pose proof (lookup_lt_Some _ _ _ Ht) as Hlen.
    revert Hs. rewrite <- (take_drop (S n) (merge_sort newer_first l)).
    rewrite (take_S_r _ _ _ Ht).
    intros (_ & Hs & _)%StronglySorted_app.
    apply StronglySorted_app in Hs as (H1 & _ & _).
    rewrite filter_app, length_app, filter_keeps_all.
    + rewrite length_app, length_take. cbn [length]. lia.
    + apply Forall_app. split.
      * apply Forall_forall. intros x Hx. apply (H1 x t Hx). constructor.
      * constructor; [lia|constructor].
Qed.

(** ** Contributor statistics, continued *)

Lemma created_after_cons b r rs :
  created_after b (r :: rs) =
  (if bool_decide (b < reply_created r) then 1 else 0) + created_after b rs.
Proof.
  unfold created_after. rewrite filter_cons.
  destruct (decide (b < reply_created r)) as [H|H].
  - rewrite bool_decide_eq_true_2 by exact H. cbn [length]. lia.
  - rewrite bool_decide_eq_false_2 by exact H. lia.
Qed.

Lemma tally_nil now c : tally now [] c = c.
Proof.
  unfold tally, created_after. destruct c; cbn. f_equal; lia.
Qed.

(** Counting a reply first and the rest after is counting them all. *)
Lemma tally_cons now r rs c :
  tally now rs (count_reply now (reply_created r) c) = tally now (r :: rs) c.
Proof.
  pose proof (boundaries_ordered now) as [H1 H2].
  unfold tally. rewrite !created_after_cons. unfold count_reply.
  destruct (Z.gtb_spec (reply_created r) (one_month_ago now)),
    (Z.gtb_spec (reply_created r) (one_week_ago now)),
    (Z.gtb_spec (reply_created r) (yesterday now));
    repeat case_bool_decide; try lia;
    cbn [add_all add_1m add_1w add_1d c_twitter_username avatar avatar_https
         c_all c_1m c_1w c_1d length]; f_equal; lia.
Qed.

Lemma replies_of_cons_eq r rs :
  replies_of (twitter_username r) (r :: rs) = r :: replies_of (twitter_username r) rs.
Proof. unfold replies_of. apply filter_cons_True. reflexivity. Qed.

Lemma replies_of_cons_ne u r rs :
  twitter_username r <> u -> replies_of u (r :: rs) = replies_of u rs.
Proof. unfold replies_of. intros H. apply filter_cons_False, H. Qed.

(** The entry that the scan holds for a user: the entry it had, or the one
    made from the first reply of the user, with the replies of the user
    counted into it. *)
Lemma scan_replies_entry now rs m0 m user :
  scan_replies now m0 rs = Ok m ->
  m !! user =
  match m0 !! user with
  | Some c0 => Some (tally now (replies_of user rs) c0)
  | None =>
      match replies_of user rs with
      | [] => None
      | r :: _ =>
          match new_contributor user (reply_raw_json r) with
          | Ok c0 => Some (tally now (replies_of user rs) c0)
          | Raise _ => None
          end
      end
  end.
Proof.
  revert m0. induction rs as [|r rs IH]; intros m0; cbn [scan_replies].
  - intros [= <-]. destruct (m0 !! user); [rewrite tally_nil|]; reflexivity.
  - destruct (scan_reply now m0 r) as [m1|e] eqn:E1; simpl; [|discriminate].
    intros Hm. rewrite (IH _ Hm). clear IH Hm.
    rewrite scan_reply_spec in E1.
    destruct (reply_raw_json_valid r); [|discriminate].
    destruct (decide (twitter_username r = user)) as [<-|Hne].
    + rewrite replies_of_cons_eq.
      destruct (m0 !! twitter_username r) as [c|].
      * injection E1 as <-. rewrite lookup_insert_eq, tally_cons. reflexivity.
      * destruct (new_contributor _ _) as [c1|]; [|discriminate].
        injection E1 as <-. rewrite lookup_insert_eq, tally_cons. reflexivity.
    + rewrite (replies_of_cons_ne _ _ _ Hne).
      destruct (m0 !! twitter_username r) as [c|].
      * injection E1 as <-. rewrite lookup_insert_ne by exact Hne. reflexivity.
      * destruct (new_contributor _ _) as [c1|]; [|discriminate].
        injection E1 as <-. rewrite !lookup_insert_ne by exact Hne. reflexivity.
Qed.

Lemma new_contributor_username user raw c :
  new_contributor user raw = Ok c -> c_twitter_username c = user.
Proof.
  unfold new_contributor.
  destruct (if bool_decide _ then _ else _) as [d|]; simpl; [|discriminate].
  destruct (subscript d "profile_image_url"); simpl; [|discriminate].
  destruct (subscript d "profile_image_url_https"); simpl; [|discriminate].
  intros [= <-]. reflexivity.
Qed.

(** The entry of a user after a scan from the empty dictionary. *)
Lemma scan_entry now rs m user c :
  scan_replies now ∅ rs = Ok m ->
  m !! user = Some c ->
  exists r rest c0,
    replies_of user rs = r :: rest /\
    new_contributor user (reply_raw_json r) = Ok c0 /\
    c = tally now (replies_of user rs) c0.
Proof.
  intros Hm Hc. rewrite (scan_replies_entry _ _ _ _ user Hm), lookup_empty in Hc.
  destruct (replies_of user rs) as [|r rest]; [discriminate|].
  destruct (new_contributor user (reply_raw_json r)) as [c0|] eqn:E; [|discriminate].
  injection Hc as <-. exists r, rest, c0.
  split; [reflexivity|]. split; [exact E|reflexivity].
Qed.

Lemma returned_entry settings w l c :
  (get_customercare_stats settings w).1 = Ok l ->
  c ∈ l ->
  exists r rest c0,
    replies_of (c_twitter_username c) (replies w) = r :: rest /\
    new_contributor (c_twitter_username c) (reply_raw_json r) = Ok c0 /\
    c = tally (clock w) (replies_of (c_twitter_username c) (replies w)) c0.
Proof.
  intros Hl Hc. apply returned_list in Hl as (m & Hm & ->).
  apply top_contributors_elem in Hc as [user Hu].
  destruct (scan_entry _ _ _ _ _ Hm Hu) as (r & rest & c0 & Hr & Hn & Hc).
  assert (c_twitter_username c = user)
    by (rewrite Hc; cbn; eapply new_contributor_username, Hn).
  subst user. exists r, rest, c0. auto.
Qed.

(** X17: the counters of every entry of the returned list count the replies
    of its user: [all] is their number, and [1m], [1w] and [1d] are the
    numbers of those created strictly after 30 days, 7 days and 1 day
    before [now]. *)
Theorem counters_count_replies settings w l c :
  (get_customercare_stats settings w).1 = Ok l ->
  c ∈ l ->
  c_all c = Z.of_nat (length (replies_of (c_twitter_username c) (replies w))) /\
  c_1m c = created_after (clock w - timedelta_days 30)
             (replies_of (c_twitter_username c) (replies w)) /\
  c_1w c = created_after (clock w - timedelta_days 7)
             (replies_of (c_twitter_username c) (replies w)) /\
  c_1d c = created_after (clock w - timedelta_days 1)
             (replies_of (c_twitter_username c) (replies w)).
Proof.
  intros Hl Hc.
  destruct (returned_entry _ _ _ _ Hl Hc) as (r & rest & c0 & _ & Hn & E).
  apply new_contributor_zero in Hn as (H1 & H2 & H3 & H4).
  rewrite E at 1 3 5 7. cbn [tally c_all c_1m c_1w c_1d].
  fold (one_month_ago (clock w)) (one_week_ago (clock w)) (yesterday (clock w)).
  rewrite H1, H2, H3, H4. repeat split; lia.
Qed.


Lemma counters_count_replies_witness :
  exists l c,
    (get_customercare_stats Sample.settings
       (Sample.world [] Sample.scenario [] true)).1 = Ok l /\
    l !! 1%nat = Some c /\ c_twitter_username c = "A" /\
    c_all c = 3 /\ c_1m c = 2 /\ c_1w c = 1 /\ c_1d c = 1.
Proof.
  destruct (get_customercare_stats Sample.settings
              (Sample.world [] Sample.scenario [] true)).1 as [l|e] eqn:E;
    [|vm_compute in E; discriminate].
  destruct (l !! 1%nat) as [c|] eqn:Ec;
    [|vm_compute in E; injection E as <-; discriminate].
  exists l, c. split; [reflexivity|]. split; [exact Ec|].
  assert (Hc : c ∈ l) by (eapply list_elem_of_lookup_2, Ec).
  destruct (counters_count_replies Sample.settings _ l c E Hc) as (H1 & H2 & H3 & H4).
  assert (Hu : c_twitter_username c = "A").
  { vm_compute in E. injection E as <-. injection Ec as <-. reflexivity. }
  rewrite Hu in H1, H2, H3, H4.
  split; [exact Hu|]. rewrite H1, H2, H3, H4. vm_compute. auto.
Defined.


Lemma new_contributor_usable user raw :
  (exists c, new_contributor user raw = Ok c) <-> usable_profile raw = true.
Proof.
  assert (Hkeys : forall d : gmap string json,
    (exists c,
       (a ← getitem d "profile_image_url";
        a_https ← getitem d "profile_image_url_https";
        mret {| c_twitter_username := user; avatar := a; avatar_https := a_https;
                c_all := 0; c_1m := 0; c_1w := 0; c_1d := 0 |}) = Ok c) <->
    bool_decide (is_Some (d !! "profile_image_url")) &&
    bool_decide (is_Some (d !! "profile_image_url_https")) = true).
  { intros d. unfold getitem.
    destruct (d !! "profile_image_url") as [a|];
      destruct (d !! "profile_image_url_https") as [b|]; simpl;
      first [ split; [intros [? ?]|]; discriminate
            | split; [reflexivity|]; intros _; eexists; reflexivity ]. }
  unfold new_contributor, usable_profile, has_nested_profile.
  case_bool_decide as Hf.
  - apply Hkeys.
  - unfold getitem at 1.
    destruct (raw !! "user") as [[| | | | |u]|];
      try (simpl; split; [intros [? ?]|]; discriminate).
    apply Hkeys.
Qed.

(** The scan ends normally exactly when the payload of every reply decodes
    and the first reply of every user that the dictionary does not hold yet
    has a usable payload. *)
Lemma scan_succeeds now rs m0 :
  (exists m, scan_replies now m0 rs = Ok m) <->
  Forall (fun r => reply_raw_json_valid r = true) rs /\
  forall user r rest,
    m0 !! user = None ->
    replies_of user rs = r :: rest ->
    usable_profile (reply_raw_json r) = true.
Proof.
  revert m0. induction rs as [|r rs IH]; intros m0; cbn [scan_replies].
  - split; [|eauto]. intros _. split; [constructor|].
    intros user r rest _ H. discriminate.
  - rewrite scan_reply_spec.
    destruct (reply_raw_json_valid r) eqn:Ev.
    2:{ simpl. split; [intros [? ?]; discriminate|].
        intros [Hall _]. apply Forall_cons in Hall as [Hr _]. congruence. }
    assert (Hstep : forall c m1,
      (forall user, user <> twitter_username r -> m1 !! user = m0 !! user) ->
      m1 !! twitter_username r = Some c ->
      (m0 !! twitter_username r = None ->
       usable_profile (reply_raw_json r) = true) ->
      (exists m, scan_replies now m1 rs = Ok m) <->
      Forall (fun r => reply_raw_json_valid r = true) (r :: rs) /\
      forall user r' rest,
        m0 !! user = None ->
        replies_of user (r :: rs) = r' :: rest ->
        usable_profile (reply_raw_json r') = true).
    { intros c m1 Hother Hsame Hfirst. rewrite IH, Forall_cons. split.
      - intros [Hall H]. split; [auto|]. intros user r' rest Hn Hr.
        destruct (decide (twitter_username r = user)) as [<-|Hne].
        + rewrite replies_of_cons_eq in Hr. injection Hr as <- _. auto.
        + rewrite (replies_of_cons_ne _ _ _ Hne) in Hr.
          apply (H user r' rest); [|exact Hr]. rewrite Hother by done. exact Hn.
      - intros [[_ Hall] H]. split; [exact Hall|]. intros user r' rest Hn Hr.
        destruct (decide (twitter_username r = user)) as [<-|Hne];
          [congruence|].
        apply (H user r' rest).
        + rewrite <- Hother by done. exact Hn.
        + rewrite (replies_of_cons_ne _ _ _ Hne). exact Hr. }
    destruct (m0 !! twitter_username r) as [c|] eqn:E0; simpl.
    + eapply Hstep.
      * intros user Hne. apply lookup_insert_ne. done.
      * apply lookup_insert_eq.
      * discriminate.
    + destruct (new_contributor (twitter_username r) (reply_raw_json r))
        as [c1|e] eqn:En; simpl.
      * eapply Hstep.
        -- intros user Hne. rewrite !lookup_insert_ne by done. reflexivity.
        -- apply lookup_insert_eq.
        -- intros _. apply (new_contributor_usable (twitter_username r)). eauto.
      * split; [intros [? ?]; discriminate|]. intros [_ H]. exfalso.
        assert (Hu : usable_profile (reply_raw_json r) = true).
        { apply (H (twitter_username r) r (replies_of (twitter_username r) rs));
            [exact E0|apply replies_of_cons_eq]. }
        apply (new_contributor_usable (twitter_username r)) in Hu as [c Hc].
        congruence.
Qed.

(** X19: [get_customercare_stats] returns a list exactly when the
    [raw_json] of every reply of the table decodes and the first reply of
    every user, in the order of the table, has a usable payload: the image
    keys next to a key ['from_user'], or else inside a nested ['user']
    dictionary.  A later reply of a user is decoded and nothing more is
    read of its payload. *)
Theorem stats_return_iff_first_payloads_usable settings w :
  (exists l, (get_customercare_stats settings w).1 = Ok l) <->
  (forall r, r ∈ replies w -> reply_raw_json_valid r = true) /\
  forall user r rest,
    replies_of user (replies w) = r :: rest ->
    usable_profile (reply_raw_json r) = true.
Proof.
  rewrite get_customercare_stats_spec, <- Forall_forall.
  pose proof (scan_succeeds (clock w) (replies w) ∅) as Hs.
  split.
  - intros [l Hl].
    destruct (scan_replies (clock w) ∅ (replies w)) as [m|e];
      [|discriminate].
    destruct (proj1 Hs (ex_intro _ m eq_refl)) as [Hall H].
    split; [exact Hall|]. intros user r rest Hr.
    apply (H user r rest); [apply lookup_empty|exact Hr].
  - intros [Hall H]. destruct (proj2 Hs) as [m Hm].
    + split; [exact Hall|]. intros user r rest _. apply H.
    + rewrite Hm. destruct (redis_up w && redis_writable w); eauto.
Qed.

(** A second reply of a known user whose [raw_json] is not JSON makes the
    run raise [ValueError], with the world left as it was. *)
Example undecodable_reply_raises :
  get_customercare_stats Sample.settings
    (Sample.world []
       [ Sample.reply "A" Sample.profile Sample.now;
         {| twitter_username := "A"; reply_raw_json_valid := false;
            reply_raw_json := ∅; reply_created := Sample.now |} ] [] true) =
  (Raise ValueError,
   Sample.world []
     [ Sample.reply "A" Sample.profile Sample.now;
       {| twitter_username := "A"; reply_raw_json_valid := false;
          reply_raw_json := ∅; reply_created := Sample.now |} ] [] true).
Proof. rewrite get_customercare_stats_spec. reflexivity. Qed.

Section Leaderboard.

Variable settings : Settings.

Lemma scan_usernames now rs m user c :
  scan_replies now ∅ rs = Ok m ->
  m !! user = Some c -> c_twitter_username c = user.
Proof.
  intros Hm Hc.
  destruct (scan_entry _ _ _ _ _ Hm Hc) as (r & rest & c0 & _ & Hn & ->).
  cbn. eapply new_contributor_username, Hn.
Qed.

Lemma scan_dom now rs m :
  scan_replies now ∅ rs = Ok m ->
  dom m = (list_to_set (twitter_username <$> rs) : gset string).
Proof.
  intros Hm. apply set_eq. intros user.
  rewrite elem_of_dom, elem_of_list_to_set, list_elem_of_fmap.
  rewrite (scan_replies_entry _ _ _ _ user Hm), lookup_empty.
  split.
  - destruct (replies_of user rs) as [|r rest] eqn:Er; [intros [? ?]; discriminate|].
    intros _. exists r. 
    assert (Hin : r ∈ replies_of user rs) by (rewrite Er; constructor).
    apply list_elem_of_filter in Hin as [Hu Hin]. auto.
  - intros (r & -> & Hin).
    assert (Hr : r ∈ replies_of (twitter_username r) rs)
      by (apply list_elem_of_filter; auto).
    destruct (replies_of (twitter_username r) rs) as [|r0 rest] eqn:Er;
      [inversion Hr|].
    assert (Hu : usable_profile (reply_raw_json r0) = true).
    { apply (proj2 (proj1 (scan_succeeds now rs ∅) (ex_intro _ m Hm))
               (twitter_username r) r0 rest); [apply lookup_empty|exact Er]. }
    apply (new_contributor_usable (twitter_username r)) in Hu as [c0 ->]. eauto.
Qed.

Lemma values_usernames now rs m :
  scan_replies now ∅ rs = Ok m ->
  c_twitter_username <$> values m = (map_to_list m).*1.
Proof.
  intros Hm. unfold values. rewrite <- list_fmap_compose.
  apply list_fmap_ext. intros i [user c] Hi. cbn.
  apply (scan_usernames _ _ _ _ _ Hm).
  apply elem_of_map_to_list. eapply list_elem_of_lookup_2, Hi.
Qed.

End Leaderboard.

(** X20: no user has two entries in the returned list, and every entry is
    that of a user of some reply. *)
Theorem leaderboard_users_distinct settings w l :
  (get_customercare_stats settings w).1 = Ok l ->
  NoDup (c_twitter_username <$> l) /\
  forall c, c ∈ l -> c_twitter_username c ∈ twitter_username <$> replies w.
Proof.
  intros Hl. split.
  - apply returned_list in Hl as (m & Hm & ->). unfold top_contributors.
    rewrite fmap_take. eapply sublist_NoDup; [|apply sublist_take].
    rewrite merge_sort_Permutation, (values_usernames _ _ _ Hm).
    apply NoDup_fst_map_to_list.
  - intros c Hc.
    destruct (returned_entry _ _ _ _ Hl Hc) as (r & rest & _ & Hr & _).
    assert (Hin : r ∈ replies_of (c_twitter_username c) (replies w))
      by (rewrite Hr; constructor).
    apply list_elem_of_filter in Hin as [<- Hin].
    apply list_elem_of_fmap_2, Hin.
Qed.

Lemma leaderboard_users_distinct_witness :
  exists l,
    (get_customercare_stats Sample.settings
       (Sample.world [] Sample.scenario [] true)).1 = Ok l /\
    NoDup (c_twitter_username <$> l).
Proof.
  destruct (get_customercare_stats Sample.settings
              (Sample.world [] Sample.scenario [] true)).1 as [l|e] eqn:E;
    [|vm_compute in E; discriminate].
  exists l. split; [reflexivity|].
  exact (proj1 (leaderboard_users_distinct Sample.settings _ l E)).
Defined.

(** X21: the returned list has one entry for each user of the replies, up
    to the limit: its length is the smaller of [CC_TOP_CONTRIB_LIMIT] and
    the number of distinct users. *)
Theorem leaderboard_length settings w l :
  (get_customercare_stats settings w).1 = Ok l ->
  length l =
  Nat.min (CC_TOP_CONTRIB_LIMIT settings)
          (size (list_to_set (twitter_username <$> replies w) : gset string)).
Proof.
  intros Hl. apply returned_list in Hl as (m & Hm & ->). unfold top_contributors.
  rewrite length_take. f_equal.
  rewrite <- (scan_dom _ _ _ Hm), size_dom.
  rewrite (Permutation_length (merge_sort_Permutation _ _)).
  unfold values. rewrite length_fmap. apply length_map_to_list.
Qed.

Lemma leaderboard_length_witness :
  exists l,
    (get_customercare_stats Sample.settings
       (Sample.world [] Sample.scenario [] true)).1 = Ok l /\
    length l = 2%nat.
Proof.
  destruct (get_customercare_stats Sample.settings
              (Sample.world [] Sample.scenario [] true)).1 as [l|e] eqn:E;
    [|vm_compute in E; discriminate].
  exists l. split; [reflexivity|].
  rewrite (leaderboard_length Sample.settings _ l E). vm_compute. reflexivity.
Defined.

(** X22: the cut keeps the top of the order: no contributor left out of the
    returned list ranks before an entry of the list. *)
Theorem leaderboard_is_top settings w l m user c c' :
  (get_customercare_stats settings w).1 = Ok l ->
  scan_replies (clock w) ∅ (replies w) = Ok m ->
  m !! user = Some c' ->
  c' ∉ l ->
  c ∈ l ->
  ranks_before (CC_TOP_CONTRIB_SORT settings) c c'.
Proof.
  intros Hl Hm Hu Hout Hin.
  apply returned_list in Hl as (m' & Hm' & ->).
  assert (m' = m) by congruence. subst m'. unfold top_contributors in *.
  set (s := merge_sort (ranks_before (CC_TOP_CONTRIB_SORT settings)) (values m)) in *.
  assert (Hs : StronglySorted (ranks_before (CC_TOP_CONTRIB_SORT settings)) s)
    by (apply StronglySorted_merge_sort; apply _).
  assert (Hc' : c' ∈ s).
  { unfold s. rewrite merge_sort_Permutation. unfold values.
    apply (list_elem_of_fmap_2 snd _ (user, c')), elem_of_map_to_list, Hu. }
  rewrite <- (take_drop (CC_TOP_CONTRIB_LIMIT settings) s) in Hs, Hc'.
  apply elem_of_app in Hc' as [Hc'|Hc']; [done|].
  exact (StronglySorted_app_1_elem_of _ _ _ _ _ Hs Hin Hc').
Qed.

Lemma leaderboard_is_top_witness :
  exists c c',
    c_twitter_username c = "B" /\ c_twitter_username c' = "A" /\
    ranks_before W_1w c c'.
Proof.
  pose (one := {| STAGE := false; CC_TWEETS_PERPAGE := 100;
                  SUMO_LANGUAGES := []; LOCALES := LOCALES Sample.settings;
                  CC_MAX_TWEETS := 2; CC_IGNORE_USERS := [];
                  CC_TOP_CONTRIB_SORT := W_1w; CC_TOP_CONTRIB_LIMIT := 1;
                  CC_TOP_CONTRIB_CACHE_KEY := "k" |}).
  pose (w := Sample.world [] Sample.scenario [] true).
  destruct (get_customercare_stats one w).1 as [l|e] eqn:E;
    [|vm_compute in E; discriminate].
  destruct (scan_replies (clock w) ∅ (replies w)) as [m|e] eqn:Em;
    [|vm_compute in Em; discriminate].
  destruct (m !! "A") as [c'|] eqn:Ea;
    [|vm_compute in Em; injection Em as <-; vm_compute in Ea; discriminate].
  destruct (l !! 0%nat) as [c|] eqn:Ec;
    [|vm_compute in E; injection E as <-; discriminate].
  assert (Hc : c ∈ l) by (eapply list_elem_of_lookup_2, Ec).
  assert (Hb : c_twitter_username c = "B").
  { vm_compute in E. injection E as <-. injection Ec as <-. reflexivity. }
  assert (Hn : c_twitter_username c' = "A").
  { vm_compute in Em. injection Em as <-. vm_compute in Ea.
    injection Ea as <-. reflexivity. }
  exists c, c'. split; [exact Hb|]. split; [exact Hn|].
  apply (leaderboard_is_top one w l m "A" c c' E Em Ea); [|exact Hc].
  intros Hin. 
  assert (Hl : c_twitter_username <$> l = ["B"]).
  { vm_compute in E. injection E as <-. reflexivity. }
  apply (list_elem_of_fmap_2 c_twitter_username) in Hin.
  rewrite Hl, Hn in Hin. apply list_elem_of_singleton in Hin. discriminate.
Defined.

(** ** The exemption of the allowed users *)

Lemma contains_at_cons (c : ascii) (s : string) :
  Text.contains "@" (String c s) = Ascii.eqb "@" c || Text.contains "@" s.
Proof.
  change (Text.contains "@" (String c s))
    with (Text.startswith "@" (String c s) || Text.contains "@" s).
  rewrite starts_with_at. reflexivity.
Qed.

Lemma contains_at_app (a b : string) :
  Text.contains "@" (a ++ b) = Text.contains "@" a || Text.contains "@" b.
Proof.
  induction a as [|c a IH]; [reflexivity|].
  change (String c a ++ b) with (String c (a ++ b)).
  rewrite !contains_at_cons, IH. apply orb_assoc.
Qed.

Lemma lower_app (a b : string) :
  Text.lower (a ++ b) = Text.lower a ++ Text.lower b.
Proof.
  induction a as [|c a IH]; [reflexivity|].
  change (String c a ++ b) with (String c (a ++ b)).
  cbn [Text.lower]. rewrite IH. reflexivity.
Qed.

(** Before the first [@] of a text nothing is replaced. *)
Lemma replace_after_prefix (old' new p s : string) :
  Text.contains "@" p = false ->
  Text.replace_from (String "@" old') new O (p ++ s) =
  p ++ Text.replace_from (String "@" old') new O s.
Proof.
  induction p as [|c p IH]; [reflexivity|].
  rewrite contains_at_cons. intros [Hc Hp]%orb_false_iff.
  change (String c p ++ s) with (String c (p ++ s)).
  cbn [Text.replace_from Text.startswith]. rewrite Hc. cbn [andb].
  rewrite (IH Hp). reflexivity.
Qed.

(** The characters of an occurrence are dropped. *)
Lemma replace_skip (old new x s : string) :
  Text.replace_from old new (String.length x) (x ++ s) =
  Text.replace_from old new O s.
Proof.
  induction x as [|c x IH]; [reflexivity|].
  change (String c x ++ s) with (String c (x ++ s)).
  cbn [String.length Text.replace_from]. exact IH.
Qed.

Lemma startswith_self (a b : string) : Text.startswith a (a ++ b) = true.
Proof.
  induction a as [|c a IH]; [reflexivity|].
  change (String c a ++ b) with (String c (a ++ b)).
  cbn [Text.startswith]. rewrite Ascii.eqb_refl, IH. reflexivity.
Qed.

Lemma replace_one_occurrence (p r : string) :
  Text.contains "@" p = false ->
  Text.contains "@" r = false ->
  Text.replace "@firefox" "" (p ++ "@firefox" ++ r) = p ++ r.
Proof.
  intros Hp Hr. unfold Text.replace.
  rewrite (replace_after_prefix "firefox" "" p _ Hp). f_equal.
  change ("@firefox" ++ r) with (String "@" ("firefox" ++ r)).
  cbn [Text.replace_from].
  change (String "@" ("firefox" ++ r)) with ("@firefox" ++ r).
  rewrite startswith_self.
  change (Nat.pred (String.length "@firefox")) with (String.length "firefox").
  rewrite replace_skip.
  change (Text.replace_from "@firefox" "" 0 r) with (Text.replace "@firefox" "" r).
  rewrite replace_absent; [reflexivity|].
  exact (contains_app_l "@" "firefox" r Hr).
Qed.

(** X23: a mention of an allowed user is exempt: a status whose text has no
    [@] but the one of a handle that is, up to letter case, [@firefox] or
    [@firefoxbrasil] passes the mention check; when it also passes the
    reply check it is not rejected under [reply_or_mention]. *)
Theorem allowed_mention_exempt settings item allow_links (p h r : string) :
  item_text item = p ++ h ++ r ->
  Text.lower h = "@firefox" \/ Text.lower h = "@firefoxbrasil" ->
  Text.contains "@" p = false ->
  Text.contains "@" r = false ->
  passes_mention_filter item = true /\
  (passes_reply_filter item = true ->
   ~ rejects settings item allow_links "reply_or_mention").
Proof.
  intros Ht Hh Hp Hr.
  assert (Hm : passes_mention_filter item = true).
  { unfold passes_mention_filter. apply negb_true_iff.
    rewrite Ht, !lower_app.
    rewrite <- contains_at_lower in Hp, Hr.
    assert (Hf : exists r', Text.lower h ++ Text.lower r = "@firefox" ++ r' /\
                            Text.contains "@" r' = false).
    { destruct Hh as [->| ->].
      - exists (Text.lower r). auto.
      - exists ("brasil" ++ Text.lower r). split; [reflexivity|].
        rewrite contains_at_app, Hr. reflexivity. }
    destruct Hf as (r' & -> & Hr').
    rewrite filtered_text_eq, (replace_one_occurrence _ _ Hp Hr').
    assert (Hnone : Text.contains "@" (Text.lower p ++ r') = false)
      by (rewrite contains_at_app, Hp, Hr'; reflexivity).
    rewrite replace_absent
      by exact (contains_app_l "@" "firefoxbrasil" _ Hnone).
    apply no_at_no_mention, Hnone. }
  split; [exact Hm|]. intros Hrp. rewrite rejects_verdict. unfold verdict.
  rewrite Hrp, Hm. cbn [negb].
  repeat match goal with
         | |- context [if ?b then _ else _] => destruct b
         end; discriminate.
Qed.

Lemma allowed_mention_exempt_witness :
  passes_mention_filter (Sample.status "thanks @FirefoxBrasil, it works" "someone") = true /\
  ~ rejects Sample.settings
      (Sample.status "thanks @FirefoxBrasil, it works" "someone") false
      "reply_or_mention".
Proof.
  destruct (allowed_mention_exempt Sample.settings
              (Sample.status "thanks @FirefoxBrasil, it works" "someone") false
              "thanks " "@FirefoxBrasil" ", it works")
    as [H1 H2]; [reflexivity | right; reflexivity | reflexivity | reflexivity |].
  split; [exact H1|]. apply H2. reflexivity.
Defined.
